(** * VerifiableCredentialStore: a shallow embedding of
      [lib/VerifiableCredentialStore.js] and the properties of its
      query expansion, issuer validation and error handling.

    The store is a class over an external document vault client
    ([edvClient]) and a capability signer.  JavaScript values are embedded
    as a small JSON-like data type, thrown exceptions are values, and the
    vault client is a parameter: a transition function over an arbitrary
    vault state that answers every call with a reply. *)

From Stdlib Require Import String Ascii List ZArith Bool Lia.
From Stdlib Require Import DecimalString.
Import ListNotations.
Local Open Scope string_scope.
Set Warnings "-register-all".

(** ** JavaScript values *)

Module Js.

(** Objects keep their properties in insertion order, as JavaScript does.
    Numbers are the integers: the store never computes with a number, it
    only tests one for truth and compares a status with 404. *)
Inductive value : Type :=
| JUndefined
| JNull
| JBool (b : bool)
| JNum (n : Z)
| JStr (s : string)
| JArr (elems : list value)
| JObj (props : list (string * value)).

Definition object := list (string * value).

(** Abrupt or normal completion of a synchronous computation; what is
    thrown is an arbitrary value, as in the language. *)
Inductive completion (A : Type) : Type :=
| Normal (a : A)
| Throw (e : value).
Arguments Normal {A} a.
Arguments Throw {A} e.

Definition bind {A B} (c : completion A) (k : A -> completion B) : completion B :=
  match c with
  | Normal a => k a
  | Throw e => Throw e
  end.

Declare Scope js_scope.
Delimit Scope js_scope with js.
Notation "x <- c ;; k" := (bind c (fun x => k))
  (at level 100, c at next level, right associativity) : js_scope.
Local Open Scope js_scope.

(** [mapM] runs a callback over an array from left to right and stops at
    the first exception: [Array.prototype.map] with a throwing callback. *)
Fixpoint mapM {A B} (f : A -> completion B) (l : list A) : completion (list B) :=
  match l with
  | [] => Normal []
  | x :: xs => y <- f x ;; ys <- mapM f xs ;; Normal (y :: ys)
  end.

(** *** Property access *)

Fixpoint lookup (k : string) (props : object) : option value :=
  match props with
  | [] => None
  | (k', v) :: rest => if String.eqb k k' then Some v else lookup k rest
  end.

(** [o[k] = v] on an ordinary object: an existing property keeps its place,
    a new one is appended. *)
Fixpoint assign (k : string) (v : value) (props : object) : object :=
  match props with
  | [] => [(k, v)]
  | (k', v') :: rest =>
      if String.eqb k k' then (k', v) :: rest else (k', v') :: assign k v rest
  end.

(** [new Error(message)]; [name] is found on the prototype unless an own
    property overrides it, which [assign "name"] does. *)
Definition mk_error (name message : string) : value :=
  JObj [("name", JStr name); ("message", JStr message)].

Definition new_Error (message : string) : value := mk_error "Error" message.
Definition new_TypeError (message : string) : value := mk_error "TypeError" message.

(** The error the engine raises when a property is read from, or a pattern
    destructures, [undefined] or [null]. *)
Definition nullish_TypeError (k : string) : value :=
  new_TypeError ("Cannot read properties of undefined or null (reading '" ++ k ++ "')").

Definition not_iterable_TypeError : value :=
  new_TypeError "object is not iterable".

Definition not_a_function_TypeError (k : string) : value :=
  new_TypeError (k ++ " is not a function").

(** [v.k], also the meaning of the pattern [{k} = v].  The store only reads
    the keys [type], [id], [issuer], [displayable], [example],
    [trustedIssuer], [credentialQuery], [documents], [content], [meta],
    [response] and [status]; none of them is defined on the prototypes of
    strings, numbers, booleans or arrays, so those yield [undefined]. *)
Definition get_prop (v : value) (k : string) : completion value :=
  match v with
  | JUndefined | JNull => Throw (nullish_TypeError k)
  | JObj props =>
      match lookup k props with
      | Some x => Normal x
      | None => Normal JUndefined
      end
  | _ => Normal JUndefined
  end.

(** ToBoolean. *)
Definition truthy (v : value) : bool :=
  match v with
  | JUndefined | JNull => false
  | JBool b => b
  | JNum n => negb (Z.eqb n 0)
  | JStr s => negb (String.eqb s "")
  | JArr _ | JObj _ => true
  end.

Definition isArray (v : value) : bool :=
  match v with JArr _ => true | _ => false end.

Definition typeof (v : value) : string :=
  match v with
  | JUndefined => "undefined"
  | JNull => "object"
  | JBool _ => "boolean"
  | JNum _ => "number"
  | JStr _ => "string"
  | JArr _ | JObj _ => "object"
  end.

(** [Array.isArray(v) ? v : [v]], the normalisation the store applies to
    [query], [credentialQuery], [trustedIssuer] and [type]. *)
Definition as_array (v : value) : list value :=
  match v with
  | JArr l => l
  | _ => [v]
  end.

(** ToString, as a template literal applies it.  Numbers are the integers;
    objects are plain data and print as [[object Object]]. *)
Fixpoint to_string (v : value) : string :=
  match v with
  | JUndefined => "undefined"
  | JNull => "null"
  | JBool true => "true"
  | JBool false => "false"
  | JNum n => NilZero.string_of_int (Z.to_int n)
  | JStr s => s
  | JArr l =>
      String.concat ","
        (map (fun x => match x with
                       | JUndefined | JNull => ""
                       | _ => to_string x
                       end) l)
  | JObj _ => "[object Object]"
  end.

(** The first element an array pattern [[x] = v] binds. *)
Definition first_of (v : value) : completion value :=
  match v with
  | JArr [] => Normal JUndefined
  | JArr (x :: _) => Normal x
  | JStr EmptyString => Normal JUndefined
  | JStr (String c _) => Normal (JStr (String c EmptyString))
  | JUndefined | JNull => Throw (nullish_TypeError "Symbol(Symbol.iterator)")
  | _ => Throw not_iterable_TypeError
  end.

(** The double-quote character, for messages that quote a name. *)
Definition dq : string := String (ascii_of_nat 34) EmptyString.

(** [for (const x of l) body], threading the variables the body updates. *)
Fixpoint for_of {A S} (l : list A) (body : A -> S -> completion S) (acc : S)
  : completion S :=
  match l with
  | [] => Normal acc
  | x :: xs => acc' <- body x acc ;; for_of xs body acc'
  end.

(** [a.push(x)]. *)
Definition push {A} (a : list A) (x : A) : list A := a ++ [x].

(** The [name] of a thrown error, when it has one. *)
Definition error_name (e : value) : option string :=
  match get_prop e "name" with
  | Normal (JStr s) => Some s
  | _ => None
  end.

Definition error_message (e : value) : option string :=
  match get_prop e "message" with
  | Normal (JStr s) => Some s
  | _ => None
  end.

End Js.

(** ** The vault client (the external collaborator) *)

Module Edv.
Import Js.

Inductive method : Type := Find | Insert | Delete | EnsureIndex.

(** What a call of a client method does: it throws before returning, or it
    returns a promise that is later fulfilled or rejected (a plain return
    value behaves as a fulfilled promise under [await] and [return]). *)
Inductive reply : Type :=
| SyncThrow (e : value)
| Resolves (v : value)
| Rejects (e : value).

(** A client answers a method call on its single options object and moves
    the vault to a new state. *)
Definition client (St : Type) : Type := method -> value -> St -> reply * St.

(** The vault together with the requests sent to it so far. *)
Record world (St : Type) : Type := mkWorld {
  vault : St;
  log : list (method * value)
}.
Arguments mkWorld {St} vault log.
Arguments vault {St} w.
Arguments log {St} w.

Definition invoke {St} (edv : client St) (m : method) (arg : value)
  (w : world St) : reply * world St :=
  let '(r, s') := edv m arg (vault w) in
  (r, mkWorld s' (push (log w) (m, arg))).

(** [await p]: both a synchronous throw of the call and a rejection of its
    promise surface at the [await]. *)
Definition await (r : reply) : completion value :=
  match r with
  | Resolves v => Normal v
  | SyncThrow e | Rejects e => Throw e
  end.

(** How the promise of an async function ends.  [RejectedRace es] is a
    rejection by one of [es]: [Promise.all] reports whichever of several
    failing requests fails first, which the vault's timing decides. *)
Inductive settled (A : Type) : Type :=
| Fulfilled (a : A)
| Rejected (e : value)
| RejectedRace (es : list value).
Arguments Fulfilled {A} a.
Arguments Rejected {A} e.
Arguments RejectedRace {A} es.

Definition settle {A} (c : completion A) : settled A :=
  match c with
  | Normal a => Fulfilled a
  | Throw e => Rejected e
  end.

End Edv.

(** ** The store *)

Module Store.
Import Js Edv.
Local Open Scope js_scope.

Section Methods.

(** [this.edvClient] and [this.invocationSigner], bound by the constructor
    and never reassigned. *)
Context {St : Type}.
Variable edv : client St.
Variable invocationSigner : value.

(** *** The constructor *)

Definition index_request_attributes : value :=
  JObj [("attribute",
         JArr [JStr "meta.issuer"; JStr "meta.displayable"; JStr "content.type"])].

Definition index_request_id : value :=
  JObj [("attribute", JStr "content.id"); ("unique", JBool true)].

(** The two indexes are declared when the store is built; what the calls
    return is not looked at. *)
Definition constructor (w : world St) : completion unit * world St :=
  let '(r1, w1) := invoke edv EnsureIndex index_request_attributes w in
  match r1 with
  | SyncThrow e => (Throw e, w1)
  | _ =>
      let '(r2, w2) := invoke edv EnsureIndex index_request_id w1 in
      match r2 with
      | SyncThrow e => (Throw e, w2)
      | _ => (Normal tt, w2)
      end
  end.

(** *** [_getIssuer] *)

Definition missing_issuer_error : value :=
  new_Error "A verifiable credential MUST have an issuer property".

Definition bad_issuer_error : value :=
  new_Error ("The value of the issuer property MUST be either a URI" ++
             " or an object containing an id property.").

Definition _getIssuer (credential : value) : completion value :=
  issuer <- get_prop credential "issuer" ;;
  if negb (truthy issuer) then Throw missing_issuer_error
  else
    conformant <-
      (if String.eqb (typeof issuer) "string" then Normal true
       else id <- get_prop issuer "id" ;;
            Normal (String.eqb (typeof id) "string")) ;;
    if negb conformant then Throw bad_issuer_error
    else if String.eqb (typeof issuer) "string" then Normal issuer
    else get_prop issuer "id".

(** *** [find] *)

Definition query_required_error : value :=
  new_TypeError (dq ++ "query" ++ dq ++ " is a required parameter.").

(** The body of the loop over the filter specs: one [entry] per spec. *)
Definition find_entry (spec : value) : completion value :=
  type <- get_prop spec "type" ;;
  issuer <- get_prop spec "issuer" ;;
  displayable <- get_prop spec "displayable" ;;
  let entry := [] in
  let entry := if truthy type then assign "content.type" type entry else entry in
  let entry := if truthy issuer then assign "meta.issuer" issuer entry else entry in
  let entry :=
    if truthy displayable then assign "meta.displayable" displayable entry
    else entry in
  Normal (JObj entry).

Definition find_equals (query : value) : completion (list value) :=
  if negb (truthy query) then Throw query_required_error
  else
    let query := as_array query in
    for_of query
      (fun spec equals => entry <- find_entry spec ;; Normal (push equals entry))
      [].

Definition find_request (equals : list value) : value :=
  JObj [("equals", JArr equals); ("invocationSigner", invocationSigner)].

(** [({content, meta, id}) => ({content, meta, documentId: id})]. *)
Definition to_record (doc : value) : completion value :=
  content <- get_prop doc "content" ;;
  meta <- get_prop doc "meta" ;;
  id <- get_prop doc "id" ;;
  Normal (JObj [("content", content); ("meta", meta); ("documentId", id)]).

(** What [find] does with the vault's answer once it has arrived. *)
Definition find_records (res : value) : completion value :=
  docs <- get_prop res "documents" ;;
  match docs with
  | JArr l => recs <- mapM to_record l ;; Normal (JArr recs)
  | JUndefined | JNull => Throw (nullish_TypeError "map")
  | _ => Throw (not_a_function_TypeError "docs.map")
  end.

(** An async function runs synchronously up to its first [await].  For
    [find] that prefix either throws (the promise is rejected at once and
    the vault is not called) or sends the one request. *)
Definition find_dispatch (query : value) (w : world St)
  : completion reply * world St :=
  match find_equals query with
  | Throw e => (Throw e, w)
  | Normal equals =>
      let '(r, w') := invoke edv Find (find_request equals) w in
      (Normal r, w')
  end.

Definition find_settle (r : reply) : completion value :=
  res <- await r ;; find_records res.

Definition find (query : value) (w : world St) : settled value * world St :=
  match find_dispatch query w with
  | (Throw e, w') => (Rejected e, w')
  | (Normal r, w') => (settle (find_settle r), w')
  end.

(** *** [_queryByExample] *)

Definition credentialQuery_needed_error : value :=
  new_Error (dq ++ "credentialQuery" ++ dq ++
             " is needed to execute a QueryByExample.").

Definition credentialQuery_shape_error : value :=
  new_Error (dq ++ "credentialQuery" ++ dq ++ " must be an object or an array.").

Definition not_supported_error : value :=
  match new_Error ("trustedIssuer without an " ++ dq ++ "id" ++ dq ++
                   " is unsupported.") with
  | JObj props => JObj (assign "name" (JStr "NotSupportedError") props)
  | e => e
  end.

(** [trustedIssuers.map(({id}) => ...)]. *)
Definition issuer_id (entry : value) : completion value :=
  id <- get_prop entry "id" ;;
  if negb (truthy id) then Throw not_supported_error else Normal id.

(** The two nested loops of [_query] that fill the local [query] array. *)
Definition expand (types issuers : list value) : completion (list value) :=
  for_of types
    (fun type query =>
       if Nat.eqb (List.length issuers) 0
       then Normal (push query (JObj [("type", type)]))
       else
         for_of issuers
           (fun issuer query =>
              Normal (push query (JObj [("type", type); ("issuer", issuer)])))
           query)
    [].

(** The inner [_query] up to its call of [this.find]: the criteria it
    builds for one clause. *)
Definition _query_criteria (clause : value) : completion (list value) :=
  example <- get_prop clause "example" ;;
  trustedIssuer <- get_prop clause "trustedIssuer" ;;
  let trustedIssuer :=
    match trustedIssuer with JUndefined => JArr [] | _ => trustedIssuer end in
  type <- get_prop example "type" ;;
  let trustedIssuers := as_array trustedIssuer in
  issuers <- mapM issuer_id trustedIssuers ;;
  let types := as_array type in
  expand types issuers.

Definition _query_dispatch (clause : value) (w : world St)
  : completion reply * world St :=
  match _query_criteria clause with
  | Throw e => (Throw e, w)
  | Normal query => find_dispatch (JArr query) w
  end.

(** [query.map(_query)]: every clause is started, in order, whether or not
    an earlier one has already failed. *)
Fixpoint dispatch_all (clauses : list value) (w : world St)
  : list (completion reply) * world St :=
  match clauses with
  | [] => ([], w)
  | c :: cs =>
      let '(d, w1) := _query_dispatch c w in
      let '(ds, w2) := dispatch_all cs w1 in
      (d :: ds, w2)
  end.

Fixpoint first_throw {A} (l : list (completion A)) : option value :=
  match l with
  | [] => None
  | Throw e :: _ => Some e
  | Normal _ :: rest => first_throw rest
  end.

Fixpoint throws {A} (l : list (completion A)) : list value :=
  match l with
  | [] => []
  | Throw e :: rest => e :: throws rest
  | Normal _ :: rest => throws rest
  end.

Fixpoint normals {A} (l : list (completion A)) : list A :=
  match l with
  | [] => []
  | Throw _ :: rest => normals rest
  | Normal a :: rest => a :: normals rest
  end.

(** [Promise.all] over the promises of the clauses.  A promise rejected in
    its synchronous prefix is already rejected when [Promise.all] looks at
    it, so the first of those wins over every request still in flight;
    among requests that fail later the earliest failure wins. *)
Definition promise_all (ds : list (completion reply)) : settled (list value) :=
  match first_throw ds with
  | Some e => Rejected e
  | None =>
      let results := map find_settle (normals ds) in
      match throws results with
      | [] => Fulfilled (normals results)
      | [e] => Rejected e
      | es => RejectedRace es
      end
  end.

(** [requiredCredentials.reduce((acc, val) => acc.concat(val), [])]. *)
Definition flatten (vals : list value) : list value :=
  fold_left (fun acc val => (acc ++ as_array val)%list) vals [].

Definition _queryByExample (credentialQuery : value) (w : world St)
  : settled (list value) * world St :=
  if negb (truthy credentialQuery) then (Rejected credentialQuery_needed_error, w)
  else if negb (String.eqb (typeof credentialQuery) "object")
  then (Rejected credentialQuery_shape_error, w)
  else
    let query := as_array credentialQuery in
    let '(ds, w') := dispatch_all query w in
    match promise_all ds with
    | Fulfilled requiredCredentials => (Fulfilled (flatten requiredCredentials), w')
    | Rejected e => (Rejected e, w')
    | RejectedRace es => (RejectedRace es, w')
    end.

(** *** [match] *)

Definition unsupported_type_error (type : value) : value :=
  new_Error ("Unsupported query type: " ++ dq ++ to_string type ++ dq).

Definition is_QueryByExample (type : value) : bool :=
  match type with
  | JStr s => String.eqb s "QueryByExample"
  | _ => false
  end.

(** [engine] is the optional result transform; [None] is the default
    identity.  Only the element argument of the callback is modelled. *)
Definition match_ (query : value) (engine : option (value -> completion value))
  (w : world St) : settled value * world St :=
  match get_prop query "type" with
  | Throw e => (Rejected e, w)
  | Normal type =>
      if is_QueryByExample type then
        match get_prop query "credentialQuery" with
        | Throw e => (Rejected e, w)
        | Normal credentialQuery =>
            match _queryByExample credentialQuery w with
            | (Fulfilled results, w') =>
                let engine :=
                  match engine with Some f => f | None => fun c => Normal c end in
                (settle (rs <- mapM engine results ;; Normal (JArr rs)), w')
            | (Rejected e, w') => (Rejected e, w')
            | (RejectedRace es, w') => (RejectedRace es, w')
            end
        end
      else (Rejected (unsupported_type_error type), w)
  end.

(** *** [insert] *)

Definition insert_request (docId : value) (meta : object) (credential : value)
  : value :=
  JObj [("doc", JObj [("id", docId); ("meta", JObj meta); ("content", credential)]);
        ("invocationSigner", invocationSigner)].

(** [meta] is typed as its documentation types it: an object when given,
    [{}] when left out. *)
Definition insert (credential : value) (meta : option object) (docId : value)
  (w : world St) : settled value * world St :=
  let meta := match meta with Some m => m | None => [] end in
  match _getIssuer credential with
  | Throw e => (Rejected e, w)
  | Normal issuer =>
      let meta := assign "issuer" issuer meta in
      let '(r, w') := invoke edv Insert (insert_request docId meta credential) w in
      (settle (doc <- await r ;;
               content <- get_prop doc "content" ;;
               id <- get_prop doc "id" ;;
               Normal (JObj [("content", content); ("documentId", id)])),
       w')
  end.

(** *** [delete] *)

Definition lookup_request (id : value) : value :=
  JObj [("equals", JObj [("content.id", id)]);
        ("invocationSigner", invocationSigner)].

Definition delete_request (doc : value) : value :=
  JObj [("doc", doc); ("invocationSigner", invocationSigner)].

Definition is_404 (status : value) : bool :=
  match status with
  | JNum n => Z.eqb n 404
  | _ => false
  end.

(** The [catch (e)] block. *)
Definition delete_catch (e : value) : settled value :=
  settle (response <- get_prop e "response" ;;
          status <- get_prop response "status" ;;
          if is_404 status then Normal (JBool false) else Throw e).

(** The [try] block awaits the lookup, so a failed lookup reaches the
    handler.  The deletion is returned without [await]: the handler sees
    the call only if it throws before returning its promise, and a promise
    that is rejected later settles the promise of [delete] directly. *)
Definition delete (id : value) (w : world St) : settled value * world St :=
  let '(r, w1) := invoke edv Find (lookup_request id) w in
  match (res <- await r ;;
         documents <- get_prop res "documents" ;;
         first_of documents) with
  | Throw e => (delete_catch e, w1)
  | Normal doc =>
      if negb (truthy doc) then (Fulfilled (JBool false), w1)
      else
        let '(r2, w2) := invoke edv Delete (delete_request doc) w1 in
        match r2 with
        | SyncThrow e => (delete_catch e, w2)
        | Resolves v => (Fulfilled v, w2)
        | Rejects e => (Rejected e, w2)
        end
  end.

(** *** [get] *)

Definition not_found_error : value :=
  match new_Error "Verifiable Credential not found." with
  | JObj props => JObj (assign "name" (JStr "NotFoundError") props)
  | e => e
  end.

(** The body of [get] declares [const {content, meta, id} = doc] although
    [id] is already bound by the parameter pattern [{id}]; module [Scope]
    below shows the clash.  [get_body] is the body read with the two
    bindings kept apart: the parameter in the request, the document's [id]
    in the record. *)
Definition get_body (id : value) (w : world St) : settled value * world St :=
  let '(r, w1) := invoke edv Find (lookup_request id) w in
  (settle (res <- await r ;;
           documents <- get_prop res "documents" ;;
           doc <- first_of documents ;;
           if negb (truthy doc) then Throw not_found_error
           else
             content <- get_prop doc "content" ;;
             meta <- get_prop doc "meta" ;;
             doc_id <- get_prop doc "id" ;;
             Normal (JObj [("content", content); ("meta", meta);
                           ("documentId", doc_id)])),
   w1).

End Methods.
End Store.

(** ** Declared names of the methods *)

Module Scope.

(** The bound names of a method's formal parameters and the names its body
    declares with [const] or [let] at its top level (declarations inside a
    nested block, loop or function belong to that block). *)
Record declared : Type := mkDeclared {
  method_name : string;
  formal_bound_names : list string;
  body_lexical_names : list string
}.

Definition declared_get : declared :=
  mkDeclared "get" ["id"] ["invocationSigner"; "doc"; "content"; "meta"; "id"].
Definition declared_find : declared :=
  mkDeclared "find" ["query"] ["equals"; "invocationSigner"; "docs"].
Definition declared_match : declared :=
  mkDeclared "match" ["query"; "engine"] ["type"; "results"].
Definition declared_insert : declared :=
  mkDeclared "insert" ["credential"; "meta"; "docId"] ["invocationSigner"; "doc"].
Definition declared_delete : declared :=
  mkDeclared "delete" ["id"] [].
Definition declared_queryByExample : declared :=
  mkDeclared "_queryByExample" ["credentialQuery"]
    ["query"; "_query"; "requiredCredentials"; "credentials"].
Definition declared_query : declared :=
  mkDeclared "_query" ["example"; "trustedIssuer"]
    ["type"; "trustedIssuers"; "query"; "issuers"; "types"].
Definition declared_getIssuer : declared :=
  mkDeclared "_getIssuer" ["credential"] ["issuer"].

Definition class_methods : list declared :=
  [declared_get; declared_find; declared_match; declared_insert;
   declared_delete; declared_queryByExample; declared_query;
   declared_getIssuer].

(** The language rejects a function whose body lexically declares a name
    that its parameters bind ("Identifier has already been declared"), when
    the source is parsed. *)
Definition redeclared (m : declared) : list string :=
  filter (fun x => existsb (String.eqb x) (body_lexical_names m))
         (formal_bound_names m).

Definition early_error (m : declared) : bool :=
  match redeclared m with
  | [] => false
  | _ => true
  end.

End Scope.

(** ** Vault clients to run the store against *)

Module Clients.
Import Js Edv.
Local Open Scope js_scope.

(** A client that plays back a fixed list of replies, one per call. *)
Definition scripted : client (list reply) :=
  fun _ _ s =>
    match s with
    | [] => (Resolves JUndefined, [])
    | r :: rest => (r, rest)
    end.

Fixpoint value_eqb (a b : value) {struct a} : bool :=
  match a, b with
  | JUndefined, JUndefined => true
  | JNull, JNull => true
  | JBool x, JBool y => Bool.eqb x y
  | JNum x, JNum y => Z.eqb x y
  | JStr x, JStr y => String.eqb x y
  | JArr xs, JArr ys =>
      (fix go (xs ys : list value) {struct xs} : bool :=
         match xs, ys with
         | [], [] => true
         | x :: xs', y :: ys' => value_eqb x y && go xs' ys'
         | _, _ => false
         end) xs ys
  | JObj ps, JObj qs =>
      (fix go (ps qs : list (string * value)) {struct ps} : bool :=
         match ps, qs with
         | [], [] => true
         | (k, x) :: ps', (k', y) :: qs' =>
             String.eqb k k' && value_eqb x y && go ps' qs'
         | _, _ => false
         end) ps qs
  | _, _ => false
  end.

(** The attribute of a document at one of the indexed paths. *)
Definition attribute (doc : value) (path : string) : value :=
  let at2 a b :=
    match (x <- get_prop doc a ;; get_prop x b) with
    | Normal v => v
    | Throw _ => JUndefined
    end in
  if String.eqb path "content.id" then at2 "content" "id"
  else if String.eqb path "content.type" then at2 "content" "type"
  else if String.eqb path "meta.issuer" then at2 "meta" "issuer"
  else if String.eqb path "meta.displayable" then at2 "meta" "displayable"
  else JUndefined.

Definition clause_matches (doc clause : value) : bool :=
  match clause with
  | JObj props =>
      forallb (fun kv => value_eqb (attribute doc (fst kv)) (snd kv)) props
  | _ => false
  end.

Definition transport_error (status : Z) : value :=
  JObj [("name", JStr "HTTPError"); ("message", JStr "Request failed");
        ("response", JObj [("status", JNum status)])].

Definition duplicate_error : value :=
  JObj [("name", JStr "DuplicateError"); ("message", JStr "Duplicate document.")].

(** Modelled from the spec: the encrypted document vault behind
    [edvClient] is not part of the repository; this is the interface of the
    spec's section on external interfaces, over a list of documents.
    [find] returns the documents that satisfy at least one clause of
    [equals] (all fields of the clause), [insert] enforces the unique
    [content.id], and [delete] of a document that is not there rejects with
    a status 404 transport error. *)
Definition memory : client (list value) :=
  fun m arg docs =>
    match m with
    | Find =>
        match get_prop arg "equals" with
        | Normal equals =>
            let clauses := as_array equals in
            let hits :=
              filter (fun d => existsb (clause_matches d) clauses) docs in
            (Resolves (JObj [("documents", JArr hits)]), docs)
        | Throw e => (Rejects e, docs)
        end
    | Insert =>
        match get_prop arg "doc" with
        | Normal doc =>
            let cid := attribute doc "content.id" in
            if existsb (fun d => value_eqb (attribute d "content.id") cid) docs
            then (Rejects duplicate_error, docs)
            else
              let doc' :=
                match doc with
                | JObj props =>
                    match lookup "id" props with
                    | Some (JStr _) => doc
                    | _ => JObj (assign "id"
                                   (JStr ("doc-" ++ to_string
                                            (JNum (Z.of_nat (List.length docs)))))
                                   props)
                    end
                | _ => doc
                end in
              (Resolves doc', (docs ++ [doc'])%list)
        | Throw e => (Rejects e, docs)
        end
    | Delete =>
        match (d <- get_prop arg "doc" ;; get_prop d "id") with
        | Normal id =>
            let same d :=
              match get_prop d "id" with
              | Normal x => value_eqb x id
              | Throw _ => false
              end in
            if existsb same docs
            then (Resolves (JBool true), filter (fun d => negb (same d)) docs)
            else (Rejects (transport_error 404), docs)
        | Throw e => (Rejects e, docs)
        end
    | EnsureIndex => (Resolves JUndefined, docs)
    end.

Definition start {St} (s : St) : world St := mkWorld s [].

Definition signer : value := JObj [("id", JStr "did:key:signer")].

End Clients.

(** ** What the claims are stated against *)

Module Reference.
Import Js Edv Store.
Local Open Scope js_scope.

(** [v.k] where the access cannot fail. *)
Definition prop (v : value) (k : string) : value :=
  match get_prop v k with
  | Normal x => x
  | Throw _ => JUndefined
  end.

Definition nullish (v : value) : bool :=
  match v with
  | JUndefined | JNull => true
  | _ => false
  end.

(** The cross-product of the expander, in the words of its description: for
    each type value the single criterion [{type}] when there is no issuer,
    otherwise one criterion [{type, issuer}] per issuer. *)
Definition criteria_spec (types issuers : list value) : list value :=
  flat_map
    (fun type =>
       match issuers with
       | [] => [JObj [("type", type)]]
       | _ => map (fun issuer => JObj [("type", type); ("issuer", issuer)]) issuers
       end)
    types.

(** The filter fields of [find] and the attribute paths they map to. *)
Definition field_paths : list (string * string) :=
  [("type", "content.type"); ("issuer", "meta.issuer");
   ("displayable", "meta.displayable")].

(** The equality clause of one filter spec: the mapped path of every field
    whose value is truthy, and nothing else. *)
Definition clause_spec (spec : value) : value :=
  JObj (flat_map
          (fun fp => let v := prop spec (fst fp) in
                     if truthy v then [(snd fp, v)] else [])
          field_paths).

(** The record [find] and [get] return for a vault document. *)
Definition record_of (doc : value) : value :=
  JObj [("content", prop doc "content"); ("meta", prop doc "meta");
        ("documentId", prop doc "id")].

(** [trustedIssuer = []] in the parameter pattern of [_query]. *)
Definition trustedIssuer_default (v : value) : value :=
  match v with
  | JUndefined => JArr []
  | _ => v
  end.

(** A clause passes when [_query] gets as far as calling [find]. *)
Definition passes (clause : value) : bool :=
  match _query_criteria clause with
  | Normal _ => true
  | Throw _ => false
  end.

(** The document the [try] block of [delete] gets from the lookup reply. *)
Definition lookup_phase (r : reply) : completion value :=
  res <- await r ;;
  documents <- get_prop res "documents" ;;
  first_of documents.

(** [e] is thrown inside the [try] block of [delete] where the [catch]
    sees it: by the awaited lookup, or by the deletion call before it
    returns its promise. *)
Definition reaches_handler {St} (edv : client St) (signer id : value)
  (w : world St) (e : value) : Prop :=
  let '(r, w1) := invoke edv Find (lookup_request signer id) w in
  lookup_phase r = Throw e
  \/ exists doc,
       lookup_phase r = Normal doc /\ truthy doc = true
       /\ fst (invoke edv Delete (delete_request signer doc) w1) = SyncThrow e.


(** A clause [{example: {type}, trustedIssuer}]. *)
Definition example_clause (type trustedIssuer : value) : value :=
  JObj [("example", JObj [("type", type)]); ("trustedIssuer", trustedIssuer)].

End Reference.

(** ** Concrete queries, credentials and documents *)

Module Examples.
Import Js Edv Store Clients.

Definition clause_AB_xy : value :=
  JObj [("example", JObj [("type", JArr [JStr "A"; JStr "B"])]);
        ("trustedIssuer", JArr [JObj [("id", JStr "x")]; JObj [("id", JStr "y")]])].

Definition clause_A : value :=
  JObj [("example", JObj [("type", JStr "A")])].

Definition QueryByExample (credentialQuery : value) : value :=
  JObj [("type", JStr "QueryByExample"); ("credentialQuery", credentialQuery)].

Definition doc1 : value :=
  JObj [("id", JStr "doc-1");
        ("meta", JObj [("issuer", JStr "x")]);
        ("content", JObj [("id", JStr "urn:1"); ("type", JStr "A");
                          ("issuer", JStr "x")])].

Definition found (docs : list value) : reply :=
  Resolves (JObj [("documents", JArr docs)]).

(** An error without [response], as a dropped connection gives. *)
Definition network_error : value := new_Error "Failed to fetch".

(** An error whose [response] is an object without [status]. *)
Definition statusless_error : value :=
  JObj [("name", JStr "Error"); ("message", JStr "Malformed response");
        ("response", JObj [])].

Definition clause_untyped : value := JObj [("example", JObj [])].

Definition clause_no_id : value :=
  JObj [("example", JObj [("type", JStr "A")]);
        ("trustedIssuer", JArr [JObj [("name", JStr "x")]])].

Definition clause_numeric_id : value :=
  JObj [("example", JObj [("type", JStr "A")]);
        ("trustedIssuer", JArr [JObj [("id", JNum 5)]])].

End Examples.

Import Js Edv Store Clients Reference Examples.
Local Open Scope js_scope.

(** ** Loops and property access *)

Lemma get_prop_nullish v k :
  nullish v = false -> get_prop v k = Normal (prop v k).
Proof.
  unfold prop. destruct v; simpl; try discriminate; intros _; try reflexivity.
  destruct (lookup k props); reflexivity.
Qed.

Lemma get_prop_normal v k x :
  get_prop v k = Normal x -> nullish v = false /\ prop v k = x.
Proof.
  unfold prop. destruct v; simpl; try discriminate; intros H; rewrite ?H;
    split; try reflexivity; try (injection H; auto).
Qed.

Lemma for_of_push_pure {A B} (f : A -> B) (l : list A) (acc : list B) :
  for_of l (fun x a => Normal (push a (f x))) acc = Normal (acc ++ map f l)%list.
Proof.
  revert acc. induction l as [|x xs IH]; intros acc; simpl.
  - now rewrite app_nil_r.
  - rewrite IH. unfold push. now rewrite <- app_assoc.
Qed.

Lemma for_of_push_mapM {A B} (f : A -> completion B) (l : list A) (acc : list B) :
  for_of l (fun x a => y <- f x ;; Normal (push a y)) acc =
  (ys <- mapM f l ;; Normal (acc ++ ys)%list).
Proof.
  revert acc. induction l as [|x xs IH]; intros acc; simpl.
  - now rewrite app_nil_r.
  - destruct (f x) as [y|e]; simpl; [|reflexivity].
    rewrite IH. destruct (mapM f xs) as [ys|e]; simpl; [|reflexivity].
    unfold push. now rewrite <- app_assoc.
Qed.

Lemma mapM_pure {A B} (f : A -> completion B) (g : A -> B) (l : list A) :
  (forall x, In x l -> f x = Normal (g x)) -> mapM f l = Normal (map g l).
Proof.
  induction l as [|x xs IH]; intros H; simpl; [reflexivity|].
  rewrite (H x (or_introl eq_refl)). simpl.
  rewrite IH by (intros y Hy; apply H; now right). reflexivity.
Qed.

(** ** The expander *)

Lemma expand_loop types issuers acc :
  for_of types
    (fun type query =>
       if Nat.eqb (List.length issuers) 0
       then Normal (push query (JObj [("type", type)]))
       else
         for_of issuers
           (fun issuer query =>
              Normal (push query (JObj [("type", type); ("issuer", issuer)])))
           query)
    acc
  = Normal (acc ++ criteria_spec types issuers)%list.
Proof.
  revert acc. induction types as [|t ts IH]; intros acc; simpl.
  - now rewrite app_nil_r.
  - destruct issuers as [|i iss]; simpl.
    + rewrite IH. unfold push. now rewrite <- app_assoc.
    + rewrite (for_of_push_pure
                 (fun issuer => JObj [("type", t); ("issuer", issuer)]) iss).
      simpl. rewrite IH. unfold push. rewrite <- !app_assoc. reflexivity.
Qed.

Lemma expand_spec types issuers :
  expand types issuers = Normal (criteria_spec types issuers).
Proof. unfold expand. now rewrite expand_loop. Qed.

Lemma criteria_spec_length types issuers :
  List.length (criteria_spec types issuers)
  = List.length types * Nat.max 1 (List.length issuers).
Proof.
  unfold criteria_spec. induction types as [|t ts IH]; simpl; [reflexivity|].
  rewrite length_app, IH. destruct issuers as [|i iss]; simpl.
  - reflexivity.
  - now rewrite length_map.
Qed.

Lemma criteria_spec_objects types issuers c :
  In c (criteria_spec types issuers) ->
  exists type, In type types /\ prop c "type" = type /\
    (c = JObj [("type", type)] /\ issuers = [] \/
     exists issuer, In issuer issuers /\
       c = JObj [("type", type); ("issuer", issuer)]).
Proof.
  unfold criteria_spec. rewrite in_flat_map. intros (t & Ht & Hc).
  exists t. split; [exact Ht|]. destruct issuers as [|i iss].
  - destruct Hc as [<-|[]]. split; [reflexivity|]. left. now split.
  - rewrite in_map_iff in Hc. destruct Hc as (x & <- & Hx).
    split; [reflexivity|]. right. exists x. now split.
Qed.

(** ** [find]: clauses and records *)

Lemma find_entry_spec spec :
  nullish spec = false -> find_entry spec = Normal (clause_spec spec).
Proof.
  intros H. unfold find_entry, clause_spec.
  rewrite !(get_prop_nullish _ _ H). simpl.
  destruct (truthy (prop spec "type")), (truthy (prop spec "issuer")),
    (truthy (prop spec "displayable")); reflexivity.
Qed.

Lemma find_equals_spec query :
  truthy query = true ->
  (forall spec, In spec (as_array query) -> nullish spec = false) ->
  find_equals query = Normal (map clause_spec (as_array query)).
Proof.
  intros Ht Hs. unfold find_equals. rewrite Ht. simpl.
  rewrite for_of_push_mapM.
  rewrite (mapM_pure find_entry clause_spec).
  - reflexivity.
  - intros x Hx. apply find_entry_spec. now apply Hs.
Qed.

Lemma invoke_log {St} (edv : client St) m arg w :
  log (snd (invoke edv m arg w)) = push (log w) (m, arg).
Proof. unfold invoke. destruct (edv m arg (vault w)); reflexivity. Qed.

Lemma invoke_reply {St} (edv : client St) m arg w :
  fst (invoke edv m arg w) = fst (edv m arg (vault w)).
Proof. unfold invoke. destruct (edv m arg (vault w)); reflexivity. Qed.

Lemma criteria_not_nullish types issuers c :
  In c (criteria_spec types issuers) -> nullish c = false.
Proof.
  intros H. apply criteria_spec_objects in H.
  destruct H as (t & _ & _ & [[-> _]|(i & _ & ->)]); reflexivity.
Qed.

Lemma find_dispatch_criteria {St} (edv : client St) signer types issuers w :
  find_dispatch edv signer (JArr (criteria_spec types issuers)) w =
  (Normal (fst (invoke edv Find
                  (find_request signer
                     (map clause_spec (criteria_spec types issuers))) w)),
   snd (invoke edv Find
          (find_request signer
             (map clause_spec (criteria_spec types issuers))) w)).
Proof.
  unfold find_dispatch. rewrite find_equals_spec.
  - simpl. destruct (invoke edv Find _ w); reflexivity.
  - reflexivity.
  - simpl. apply criteria_not_nullish.
Qed.

Lemma issuer_ids entries :
  (forall e, In e entries -> nullish e = false /\ truthy (prop e "id") = true) ->
  mapM issuer_id entries = Normal (map (fun e => prop e "id") entries).
Proof.
  intros H. apply mapM_pure. intros e He. destruct (H e He) as [Hn Ht].
  unfold issuer_id. rewrite (get_prop_nullish _ _ Hn). simpl. now rewrite Ht.
Qed.

Lemma _query_criteria_spec clause example type entries :
  get_prop clause "example" = Normal example ->
  get_prop example "type" = Normal type ->
  as_array (trustedIssuer_default (prop clause "trustedIssuer")) = entries ->
  _query_criteria clause =
  (issuers <- mapM issuer_id entries ;;
   Normal (criteria_spec (as_array type) issuers)).
Proof.
  intros He Ht Hi. unfold _query_criteria. rewrite He. simpl.
  apply get_prop_normal in He. destruct He as [Hc _].
  rewrite (get_prop_nullish _ _ Hc). simpl. rewrite Ht. simpl.
  unfold trustedIssuer_default in Hi. rewrite Hi.
  destruct (mapM issuer_id entries); simpl; [apply expand_spec|reflexivity].
Qed.

(** C1. For every clause whose example carries [type] and whose trusted
    issuer entries all have an id, the expander emits the cross-product of
    the type values and the issuer ids: per type the single criterion
    [{type}] when there is no issuer, one [{type, issuer}] per issuer
    otherwise, and [find] sends them to the vault as one request.  Types
    [A, B] with issuers [x, y] give exactly (A,x), (A,y), (B,x), (B,y); a
    scalar type without [trustedIssuer] gives exactly [{type}], with no
    issuer constraint. *)
Theorem expander_emits_cross_product :
  (forall clause example type entries,
      get_prop clause "example" = Normal example ->
      get_prop example "type" = Normal type ->
      as_array (trustedIssuer_default (prop clause "trustedIssuer")) = entries ->
      (forall e, In e entries ->
                 nullish e = false /\ truthy (prop e "id") = true) ->
      let issuers := map (fun e => prop e "id") entries in
      let criteria := criteria_spec (as_array type) issuers in
      _query_criteria clause = Normal criteria
      /\ List.length criteria
         = List.length (as_array type) * Nat.max 1 (List.length issuers)
      /\ forall St (edv : client St) signer w,
           log (snd (_query_dispatch edv signer clause w))
           = push (log w)
               (Find, find_request signer (map clause_spec criteria)))
  /\ _query_criteria clause_AB_xy =
     Normal [JObj [("type", JStr "A"); ("issuer", JStr "x")];
             JObj [("type", JStr "A"); ("issuer", JStr "y")];
             JObj [("type", JStr "B"); ("issuer", JStr "x")];
             JObj [("type", JStr "B"); ("issuer", JStr "y")]]
  /\ _query_criteria clause_A = Normal [JObj [("type", JStr "A")]]
  /\ (forall St (edv : client St) signer w,
        log (snd (match_ edv signer (QueryByExample clause_AB_xy) None w))
        = push (log w)
            (Find, find_request signer
               [JObj [("content.type", JStr "A"); ("meta.issuer", JStr "x")];
                JObj [("content.type", JStr "A"); ("meta.issuer", JStr "y")];
                JObj [("content.type", JStr "B"); ("meta.issuer", JStr "x")];
                JObj [("content.type", JStr "B"); ("meta.issuer", JStr "y")]]))
  /\ (forall St (edv : client St) signer w,
        log (snd (match_ edv signer (QueryByExample clause_A) None w))
        = push (log w)
            (Find, find_request signer [JObj [("content.type", JStr "A")]])).
Proof.
  split; [|split; [reflexivity|split; [reflexivity|split]]].
  - intros clause example type entries He Ht Hi Hall issuers criteria.
    assert (Hq : _query_criteria clause = Normal criteria).
    { rewrite (_query_criteria_spec _ _ _ _ He Ht Hi).
      rewrite (issuer_ids _ Hall). reflexivity. }
    split; [exact Hq|]. split; [apply criteria_spec_length|].
    intros St edv signer w. unfold _query_dispatch. rewrite Hq.
    unfold criteria. rewrite find_dispatch_criteria. simpl. apply invoke_log.
  - intros St edv signer w. unfold match_, QueryByExample. simpl.
    unfold _queryByExample. simpl.
    unfold _query_dispatch, find_dispatch. simpl.
    unfold invoke. destruct (edv Find _ (vault w)) as [r s'].
    destruct (promise_all _); reflexivity.
  - intros St edv signer w. unfold match_, QueryByExample. simpl.
    unfold _queryByExample. simpl.
    unfold _query_dispatch, find_dispatch. simpl.
    unfold invoke. destruct (edv Find _ (vault w)) as [r s'].
    destruct (promise_all _); reflexivity.
Qed.

(** Witness of C1: the clause with types [A, B] and issuers [x, y]. *)
Lemma expander_emits_cross_product_witness :
  _query_criteria clause_AB_xy =
  Normal (criteria_spec [JStr "A"; JStr "B"] [JStr "x"; JStr "y"]).
Proof.
  refine (proj1 (proj1 expander_emits_cross_product clause_AB_xy
                   (JObj [("type", JArr [JStr "A"; JStr "B"])])
                   (JArr [JStr "A"; JStr "B"])
                   [JObj [("id", JStr "x")]; JObj [("id", JStr "y")]]
                   eq_refl eq_refl eq_refl _)).
  intros e [<-|[<-|[]]]; split; reflexivity.
Defined.

Lemma to_record_spec doc :
  nullish doc = false -> to_record doc = Normal (record_of doc).
Proof.
  intros H. unfold to_record, record_of.
  now rewrite !(get_prop_nullish _ _ H).
Qed.

Lemma find_records_spec res docs :
  get_prop res "documents" = Normal (JArr docs) ->
  (forall d, In d docs -> nullish d = false) ->
  find_records res = Normal (JArr (map record_of docs)).
Proof.
  intros Hd Hn. unfold find_records. rewrite Hd. simpl.
  rewrite (mapM_pure to_record record_of); [reflexivity|].
  intros d Hin. apply to_record_spec. now apply Hn.
Qed.

Lemma find_falsy_query {St} (edv : client St) signer query w :
  truthy query = false ->
  find edv signer query w = (Rejected query_required_error, w).
Proof.
  intros H. unfold find, find_dispatch, find_equals. now rewrite H.
Qed.

(** Counterexample to C2 as stated: [find] without a query is rejected,
    but not with an error named [ConfigurationError]. *)
Lemma find_absent_query_not_ConfigurationError :
  ~ (exists e,
        fst (find scripted signer JUndefined (start [])) = Rejected e
        /\ error_name e = Some "ConfigurationError").
Proof.
  intros (e & He & Hn). vm_compute in He. injection He as <-.
  vm_compute in Hn. discriminate.
Qed.

(** C2, amended.  [find] with an absent (or otherwise falsy) query fails
    with the [TypeError] '"query" is a required parameter.' and sends
    nothing.  Otherwise, for the filter specs of the scalar-or-array query,
    exactly one equality clause is built per spec, holding the mapped path
    of every field of the spec whose value is truthy ([type] to
    [content.type], [issuer] to [meta.issuer], [displayable] to
    [meta.displayable]) and nothing else; the clauses go to the vault as
    one request, and every document of the answer becomes one
    [{content, meta, documentId}] record, in order, none dropped. *)
Theorem find_builds_one_clause_per_filter_spec :
  forall St (edv : client St) signer query w,
    (truthy query = false ->
     find edv signer query w = (Rejected query_required_error, w)
     /\ error_name query_required_error = Some "TypeError"
     /\ error_message query_required_error
        = Some (dq ++ "query" ++ dq ++ " is a required parameter."))
    /\ (truthy query = true ->
        (forall spec, In spec (as_array query) -> nullish spec = false) ->
        let equals := map clause_spec (as_array query) in
        find_equals query = Normal equals
        /\ List.length equals = List.length (as_array query)
        /\ log (snd (find edv signer query w))
           = push (log w) (Find, find_request signer equals)
        /\ forall res docs,
             fst (edv Find (find_request signer equals) (vault w)) = Resolves res ->
             get_prop res "documents" = Normal (JArr docs) ->
             (forall d, In d docs -> nullish d = false) ->
             fst (find edv signer query w) = Fulfilled (JArr (map record_of docs))).
Proof.
  intros St edv signer query w. split.
  - intros H. split; [now apply find_falsy_query|]. split; reflexivity.
  - intros Ht Hs equals.
    assert (He : find_equals query = Normal equals)
      by now apply find_equals_spec.
    split; [exact He|]. split; [apply length_map|].
    unfold find, find_dispatch. rewrite He.
    pose proof (invoke_log edv Find (find_request signer equals) w) as Hl.
    pose proof (invoke_reply edv Find (find_request signer equals) w) as Hr.
    destruct (invoke edv Find (find_request signer equals) w) as [r w'].
    simpl in *. split; [exact Hl|].
    intros res docs Hres Hd Hn. rewrite Hr, Hres. unfold find_settle. simpl.
    now rewrite (find_records_spec _ _ Hd Hn).
Qed.

(** Witness of C2: an absent query, and the query
    [[{type: "A", displayable: false}, {issuer: "x"}]] against the empty
    in-memory vault. *)
Lemma find_builds_one_clause_per_filter_spec_witness :
  find memory signer JUndefined (start []) = (Rejected query_required_error, start [])
  /\ find_equals (JArr [JObj [("type", JStr "A"); ("displayable", JBool false)];
                        JObj [("issuer", JStr "x")]])
     = Normal [JObj [("content.type", JStr "A")]; JObj [("meta.issuer", JStr "x")]].
Proof.
  split.
  - exact (proj1 (proj1 (find_builds_one_clause_per_filter_spec
                           _ memory signer JUndefined (start [])) eq_refl)).
  - refine (proj1 (proj2 (find_builds_one_clause_per_filter_spec
                            _ memory signer
                            (JArr [JObj [("type", JStr "A");
                                         ("displayable", JBool false)];
                                   JObj [("issuer", JStr "x")]])
                            (start [])) eq_refl _)).
    intros spec [<-|[<-|[]]]; reflexivity.
Defined.

(** ** [_getIssuer] *)

Lemma typeof_string v :
  String.eqb (typeof v) "string" = true <-> exists s, v = JStr s.
Proof.
  split.
  - destruct v; simpl; try discriminate. intros _. now exists s.
  - intros (s & ->). reflexivity.
Qed.

Lemma typeof_not_string v :
  (forall s, v <> JStr s) -> String.eqb (typeof v) "string" = false.
Proof.
  intros H. destruct (String.eqb (typeof v) "string") eqn:E; [|reflexivity].
  apply typeof_string in E. destruct E as (s & ->). now destruct (H s).
Qed.

Lemma truthy_not_nullish v : truthy v = true -> nullish v = false.
Proof. destruct v; simpl; intros H; try reflexivity; discriminate. Qed.

(** Counterexample to C3 as stated: the error for an absent issuer is not
    named [ValidationError], and the empty string, although a string, is
    not returned. *)
Lemma getIssuer_not_ValidationError_nor_empty_string :
  ~ (exists e, _getIssuer (JObj []) = Throw e
               /\ error_name e = Some "ValidationError")
  /\ _getIssuer (JObj [("issuer", JStr "")]) <> Normal (JStr "").
Proof.
  split.
  - intros (e & He & Hn). vm_compute in He. injection He as <-.
    vm_compute in Hn. discriminate.
  - vm_compute. discriminate.
Qed.

(** C3, amended.  For every credential object, deriving the issuer
    identifier fails with the generic [Error] "A verifiable credential MUST
    have an issuer property" when [credential.issuer] is absent or falsy
    (the empty string included); fails with the generic [Error] "The value
    of the issuer property MUST be either a URI or an object containing an
    id property." when the issuer is neither a string nor a value with a
    string [id]; and otherwise returns the issuer itself when it is a
    string, or [issuer.id]. *)
Theorem getIssuer_derives_the_issuer_id :
  forall credential issuer,
    get_prop credential "issuer" = Normal issuer ->
    (truthy issuer = false ->
     _getIssuer credential = Throw missing_issuer_error)
    /\ (truthy issuer = true ->
        (forall s, issuer <> JStr s) ->
        (forall s, prop issuer "id" <> JStr s) ->
        _getIssuer credential = Throw bad_issuer_error)
    /\ (forall s, issuer = JStr s -> s <> "" ->
                  _getIssuer credential = Normal (JStr s))
    /\ (forall s, truthy issuer = true ->
                  (forall s', issuer <> JStr s') ->
                  prop issuer "id" = JStr s ->
                  _getIssuer credential = Normal (JStr s))
    /\ error_name missing_issuer_error = Some "Error"
    /\ error_name bad_issuer_error = Some "Error".
Proof.
  intros credential issuer Hi. unfold _getIssuer. rewrite Hi. simpl.
  repeat split.
  - intros Ht. now rewrite Ht.
  - intros Ht Hs Hid. rewrite Ht. simpl.
    rewrite (typeof_not_string _ Hs).
    rewrite (get_prop_nullish _ _ (truthy_not_nullish _ Ht)). simpl.
    now rewrite (typeof_not_string _ Hid).
  - intros s -> Hs. simpl.
    destruct (String.eqb s "") eqn:E; [|reflexivity].
    apply String.eqb_eq in E. contradiction.
  - intros s Ht Hs Hid. rewrite Ht. simpl.
    rewrite (typeof_not_string _ Hs).
    rewrite (get_prop_nullish _ _ (truthy_not_nullish _ Ht)). simpl.
    rewrite Hid. reflexivity.
Qed.

(** Witness of C3: a credential whose issuer is the object
    [{id: "did:example:issuer", name: "Issuer"}], and one without issuer. *)
Lemma getIssuer_derives_the_issuer_id_witness :
  _getIssuer (JObj [("issuer", JObj [("id", JStr "did:example:issuer");
                                     ("name", JStr "Issuer")])])
  = Normal (JStr "did:example:issuer")
  /\ _getIssuer (JObj [("id", JStr "urn:1")]) = Throw missing_issuer_error.
Proof.
  split.
  - refine (proj1 (proj2 (proj2 (proj2
              (getIssuer_derives_the_issuer_id
                 (JObj [("issuer", JObj [("id", JStr "did:example:issuer");
                                         ("name", JStr "Issuer")])])
                 _ eq_refl))))
              "did:example:issuer" eq_refl _ eq_refl).
    intros s'; discriminate.
  - exact (proj1 (getIssuer_derives_the_issuer_id
                    (JObj [("id", JStr "urn:1")]) JUndefined eq_refl) eq_refl).
Defined.

(** ** [delete] *)

Lemma delete_unfold {St} (edv : client St) signer id w :
  delete edv signer id w =
  let r := fst (invoke edv Find (lookup_request signer id) w) in
  let w1 := snd (invoke edv Find (lookup_request signer id) w) in
  match lookup_phase r with
  | Throw e => (delete_catch e, w1)
  | Normal doc =>
      if negb (truthy doc) then (Fulfilled (JBool false), w1)
      else
        let r2 := fst (invoke edv Delete (delete_request signer doc) w1) in
        let w2 := snd (invoke edv Delete (delete_request signer doc) w1) in
        match r2 with
        | SyncThrow e => (delete_catch e, w2)
        | Resolves v => (Fulfilled v, w2)
        | Rejects e => (Rejected e, w2)
        end
  end.
Proof.
  unfold delete, lookup_phase.
  destruct (invoke edv Find (lookup_request signer id) w) as [r w1]. simpl.
  destruct (res <- await r ;; documents <- get_prop res "documents" ;;
            first_of documents) as [doc|e]; [|reflexivity].
  destruct (negb (truthy doc)); [reflexivity|].
  destruct (invoke edv Delete (delete_request signer doc) w1) as [r2 w2].
  reflexivity.
Qed.

(** The handler: what becomes of an error that reaches [catch]. *)
Lemma delete_catch_cases e :
  (nullish e = true -> delete_catch e = Rejected (nullish_TypeError "response"))
  /\ (nullish e = false -> nullish (prop e "response") = true ->
      delete_catch e = Rejected (nullish_TypeError "status"))
  /\ (nullish e = false -> nullish (prop e "response") = false ->
      delete_catch e =
      if is_404 (prop (prop e "response") "status")
      then Fulfilled (JBool false) else Rejected e).
Proof.
  unfold delete_catch. repeat split.
  - destruct e; simpl; try discriminate; reflexivity.
  - intros He Hr. rewrite (get_prop_nullish _ _ He). simpl.
    destruct (prop e "response"); simpl in *; try discriminate; reflexivity.
  - intros He Hr. rewrite (get_prop_nullish _ _ He). simpl.
    rewrite (get_prop_nullish _ _ Hr). simpl.
    destruct (is_404 _); reflexivity.
Qed.

(** No document with the id: [false], and only the lookup was sent. *)
Lemma delete_absent_returns_false {St} (edv : client St) signer id w res :
  fst (edv Find (lookup_request signer id) (vault w)) = Resolves res ->
  get_prop res "documents" = Normal (JArr []) ->
  fst (delete edv signer id w) = Fulfilled (JBool false)
  /\ log (snd (delete edv signer id w))
     = push (log w) (Find, lookup_request signer id)
  /\ vault (snd (delete edv signer id w))
     = snd (edv Find (lookup_request signer id) (vault w)).
Proof.
  intros Hr Hd. rewrite delete_unfold. cbv zeta.
  rewrite invoke_reply, Hr. unfold lookup_phase. simpl. rewrite Hd. simpl.
  split; [reflexivity|]. split; [apply invoke_log|].
  unfold invoke. destruct (edv Find _ (vault w)); reflexivity.
Qed.

(** A matching document: the deletion is requested for it and the vault's
    answer is returned as it is. *)
Lemma delete_found_returns_vault_result {St} (edv : client St) signer id w
  res documents doc v :
  fst (edv Find (lookup_request signer id) (vault w)) = Resolves res ->
  get_prop res "documents" = Normal documents ->
  first_of documents = Normal doc ->
  truthy doc = true ->
  fst (edv Delete (delete_request signer doc)
         (snd (edv Find (lookup_request signer id) (vault w)))) = Resolves v ->
  fst (delete edv signer id w) = Fulfilled v
  /\ log (snd (delete edv signer id w))
     = push (push (log w) (Find, lookup_request signer id))
         (Delete, delete_request signer doc).
Proof.
  intros Hr Hd Hf Ht Hv. rewrite delete_unfold. cbv zeta.
  rewrite invoke_reply, Hr. unfold lookup_phase. simpl. rewrite Hd. simpl.
  rewrite Hf, Ht. simpl.
  assert (Hw : vault (snd (invoke edv Find (lookup_request signer id) w))
               = snd (edv Find (lookup_request signer id) (vault w))).
  { unfold invoke. destruct (edv Find _ (vault w)); reflexivity. }
  rewrite invoke_reply, Hw, Hv. simpl.
  now rewrite !invoke_log.
Qed.

(** A failed lookup with status 404 becomes [false]; with any other status
    the error is raised again unchanged. *)
Lemma delete_translates_lookup_status {St} (edv : client St) signer id w e
  response status :
  await (fst (edv Find (lookup_request signer id) (vault w))) = Throw e ->
  get_prop e "response" = Normal response ->
  get_prop response "status" = Normal status ->
  fst (delete edv signer id w) =
  if is_404 status then Fulfilled (JBool false) else Rejected e.
Proof.
  intros Ha Hr Hs. rewrite delete_unfold. cbv zeta.
  rewrite invoke_reply. unfold lookup_phase. rewrite Ha. simpl.
  unfold delete_catch. rewrite Hr. simpl. rewrite Hs. simpl.
  destruct (is_404 status); reflexivity.
Qed.

(** A deletion whose promise is rejected is not seen by the handler: the
    error settles [delete], whatever its status. *)
Lemma delete_passes_on_rejected_deletion {St} (edv : client St) signer id w
  doc e :
  lookup_phase (fst (invoke edv Find (lookup_request signer id) w)) = Normal doc ->
  truthy doc = true ->
  fst (invoke edv Delete (delete_request signer doc)
         (snd (invoke edv Find (lookup_request signer id) w))) = Rejects e ->
  fst (delete edv signer id w) = Rejected e.
Proof.
  intros Hl Ht Hd. rewrite delete_unfold. cbv zeta.
  rewrite Hl, Ht. simpl. now rewrite Hd.
Qed.

(** In the in-memory vault, deleting an id that no document carries
    returns [false] and leaves the vault as it was, so a second call
    returns [false] as well. *)
Lemma delete_absent_twice docs id l :
  (forall d, In d docs -> value_eqb (attribute d "content.id") id = false) ->
  let w := mkWorld docs l in
  fst (delete memory signer id w) = Fulfilled (JBool false)
  /\ vault (snd (delete memory signer id w)) = docs
  /\ fst (delete memory signer id (snd (delete memory signer id w)))
     = Fulfilled (JBool false).
Proof.
  intros Habs w.
  assert (Hnone : filter (fun d => existsb (clause_matches d)
                                     [JObj [("content.id", id)]]) docs = []).
  { clear w. induction docs as [|d ds IH]; [reflexivity|].
    cbn [filter existsb clause_matches forallb fst snd].
    rewrite (Habs d (or_introl eq_refl)). simpl.
    apply IH. intros x Hx. apply Habs. now right. }
  assert (Hone : forall l', delete memory signer id (mkWorld docs l')
                 = (Fulfilled (JBool false),
                    mkWorld docs (push l' (Find, lookup_request signer id)))).
  { intros l'. unfold delete, invoke, memory.
    cbn [get_prop lookup_request lookup String.eqb Ascii.eqb Bool.eqb vault as_array].
    rewrite Hnone. reflexivity. }
  unfold w. rewrite !Hone. simpl. rewrite Hone. repeat split.
Qed.

(** C4: the part of the claim the code misses.  The vault holds a document
    with the id, the lookup finds it, and the promise of the deletion is
    rejected with a transport error of status 404 (the document went away
    in between): [delete] is rejected with that error, it does not return
    [false]. *)
Theorem delete_does_not_translate_rejected_deletion_404 :
  let script := [found [doc1]; Rejects (transport_error 404)] in
  fst (delete scripted signer (JStr "urn:1") (start script))
  = Rejected (transport_error 404)
  /\ fst (delete scripted signer (JStr "urn:1") (start script))
     <> Fulfilled (JBool false)
  /\ log (snd (delete scripted signer (JStr "urn:1") (start script)))
     = [(Find, lookup_request signer (JStr "urn:1"));
        (Delete, delete_request signer doc1)]
  /\ fst (delete scripted signer (JStr "urn:1")
            (start [Rejects (transport_error 404)]))
     = Fulfilled (JBool false).
Proof.
  cbv zeta. repeat split; try reflexivity. vm_compute. discriminate.
Qed.

Lemma delete_enters_handler {St} (edv : client St) signer id w e :
  reaches_handler edv signer id w e ->
  fst (delete edv signer id w) = delete_catch e.
Proof.
  unfold reaches_handler. rewrite delete_unfold. cbv zeta.
  destruct (invoke edv Find (lookup_request signer id) w) as [r w1]. simpl.
  intros [H|(doc & Hl & Ht & Hd)].
  - now rewrite H.
  - rewrite Hl, Ht. simpl. now rewrite Hd.
Qed.

(** Counterexample to C10 as stated: an error whose [response] is an object
    without [status], raised by the lookup, is raised again unchanged; and
    an error without [response] with which the promise of the deletion is
    rejected settles [delete] unchanged.  Neither becomes a [TypeError]. *)
Lemma delete_reraises_errors_without_status :
  fst (delete scripted signer (JStr "urn:1") (start [Rejects statusless_error]))
  = Rejected statusless_error
  /\ fst (delete scripted signer (JStr "urn:1")
            (start [found [doc1]; Rejects network_error]))
     = Rejected network_error
  /\ error_name statusless_error = Some "Error"
  /\ error_name network_error = Some "Error"
  /\ prop (prop statusless_error "response") "status" = JUndefined
  /\ prop network_error "response" = JUndefined.
Proof. repeat split. Qed.

(** C10, amended.  For every error [e] that the handler of [delete] sees
    (raised by the awaited lookup, or thrown by the deletion call itself)
    and whose [response] is [undefined] or [null], [delete] does not raise
    [e] again: reading [e.response.status] raises a [TypeError], which
    replaces [e].  An error whose [response] is any other value is raised
    again unchanged unless its status is 404. *)
Theorem delete_replaces_error_without_response :
  forall St (edv : client St) signer id w e,
    reaches_handler edv signer id w e ->
    (nullish e = true ->
     fst (delete edv signer id w) = Rejected (nullish_TypeError "response"))
    /\ (nullish e = false -> nullish (prop e "response") = true ->
        fst (delete edv signer id w) = Rejected (nullish_TypeError "status"))
    /\ (nullish e = false -> nullish (prop e "response") = false ->
        is_404 (prop (prop e "response") "status") = false ->
        fst (delete edv signer id w) = Rejected e)
    /\ (forall k, error_name (nullish_TypeError k) = Some "TypeError").
Proof.
  intros St edv signer id w e H.
  rewrite (delete_enters_handler _ _ _ _ _ H).
  destruct (delete_catch_cases e) as (H1 & H2 & H3).
  split; [exact H1|]. split; [exact H2|]. split; [|reflexivity].
  intros He Hr Hs. rewrite (H3 He Hr), Hs. reflexivity.
Qed.

(** Witness of C10: the lookup is rejected with an error that has no
    [response]. *)
Lemma delete_replaces_error_without_response_witness :
  fst (delete scripted signer (JStr "urn:1") (start [Rejects network_error]))
  = Rejected (nullish_TypeError "status").
Proof.
  refine (proj1 (proj2 (delete_replaces_error_without_response
                          _ scripted signer (JStr "urn:1")
                          (start [Rejects network_error]) network_error _))
            eq_refl eq_refl).
  left. reflexivity.
Defined.

(** ** [match] *)

(** Counterexample to C5 as stated: the error for the unsupported type
    [PresentationExchange] is not named [ConfigurationError]. *)
Lemma match_unsupported_type_not_ConfigurationError :
  ~ (exists e,
        fst (match_ scripted signer
               (JObj [("type", JStr "PresentationExchange")]) None (start []))
        = Rejected e
        /\ error_name e = Some "ConfigurationError").
Proof.
  intros (e & He & Hn). vm_compute in He. injection He as <-.
  vm_compute in Hn. discriminate.
Qed.

(** C5, amended.  For every query whose outer type is anything other than
    "QueryByExample", [match] raises a generic [Error] (its name is
    "Error") whose message, [Unsupported query type: "<type>"], names the
    unsupported type, and no request is sent to the vault. *)
Theorem match_rejects_unsupported_type :
  forall St (edv : client St) signer query engine w type,
    get_prop query "type" = Normal type ->
    type <> JStr "QueryByExample" ->
    match_ edv signer query engine w = (Rejected (unsupported_type_error type), w)
    /\ error_name (unsupported_type_error type) = Some "Error"
    /\ error_message (unsupported_type_error type)
       = Some ("Unsupported query type: " ++ dq ++ to_string type ++ dq)
    /\ (forall s, type = JStr s -> to_string type = s)
    /\ log (snd (match_ edv signer query engine w)) = log w.
Proof.
  intros St edv signer query engine w type Hq Ht.
  assert (Hm : match_ edv signer query engine w
               = (Rejected (unsupported_type_error type), w)).
  { unfold match_. rewrite Hq.
    destruct (is_QueryByExample type) eqn:E; [|reflexivity].
    destruct type; simpl in E; try discriminate.
    apply String.eqb_eq in E. subst. contradiction. }
  split; [exact Hm|]. rewrite Hm. repeat split.
  intros s ->. reflexivity.
Qed.

(** Witness of C5: the query [{type: "PresentationExchange"}]. *)
Lemma match_rejects_unsupported_type_witness :
  match_ memory signer (JObj [("type", JStr "PresentationExchange")]) None
    (start [doc1])
  = (Rejected (new_Error ("Unsupported query type: " ++ dq ++
                          "PresentationExchange" ++ dq)),
     start [doc1]).
Proof.
  refine (proj1 (match_rejects_unsupported_type
                   _ memory signer (JObj [("type", JStr "PresentationExchange")])
                   None (start [doc1]) (JStr "PresentationExchange")
                   eq_refl _)).
  discriminate.
Defined.

(** ** The clauses of a query by example *)

Lemma _query_criteria_shape clause query :
  _query_criteria clause = Normal query ->
  exists types issuers, query = criteria_spec types issuers.
Proof.
  unfold _query_criteria.
  destruct (get_prop clause "example") as [example|]; simpl; [|discriminate].
  destruct (get_prop clause "trustedIssuer") as [ti|]; simpl; [|discriminate].
  destruct (get_prop example "type") as [type|]; simpl; [|discriminate].
  destruct (mapM issuer_id _) as [issuers|]; simpl; [|discriminate].
  rewrite expand_spec. intros H. injection H as <-. eauto.
Qed.

Lemma mapM_throws {A B} (f : A -> completion B) before x after e :
  (forall a, In a before -> exists b, f a = Normal b) ->
  f x = Throw e ->
  mapM f (before ++ x :: after) = Throw e.
Proof.
  intros Hb Hx. induction before as [|a bs IH]; simpl.
  - now rewrite Hx.
  - destruct (Hb a (or_introl eq_refl)) as (b & ->). simpl.
    rewrite IH; [reflexivity|]. intros y Hy. apply Hb. now right.
Qed.

Lemma get_prop_throws v k e :
  get_prop v k = Throw e -> error_name e = Some "TypeError".
Proof.
  destruct v; simpl; try discriminate;
    try (intros H; injection H as <-; reflexivity).
  destruct (lookup k props); discriminate.
Qed.

Lemma issuer_ids_throw entries e :
  mapM issuer_id entries = Throw e ->
  error_name e = Some "TypeError" \/ e = not_supported_error.
Proof.
  induction entries as [|x xs IH]; simpl; [discriminate|].
  unfold issuer_id at 1.
  destruct (get_prop x "id") as [id|e0] eqn:Ei; simpl.
  - destruct (truthy id); simpl.
    + destruct (mapM issuer_id xs) as [ys|e1]; simpl; [discriminate|].
      intros H. injection H as <-. now apply IH.
    + intros H. injection H as <-. now right.
  - intros H. injection H as <-. left. now apply (get_prop_throws x "id").
Qed.

(** The expander raises nothing but the engine's [TypeError] for a missing
    object and the [NotSupportedError] for a trusted issuer without id. *)
Lemma _query_criteria_throws clause e :
  _query_criteria clause = Throw e ->
  error_name e = Some "TypeError" \/ e = not_supported_error.
Proof.
  unfold _query_criteria.
  destruct (get_prop clause "example") as [example|e0] eqn:E0; simpl.
  2: { intros H. injection H as <-. left. now apply (get_prop_throws clause "example"). }
  destruct (get_prop clause "trustedIssuer") as [ti|e1] eqn:E1; simpl.
  2: { intros H. injection H as <-. left.
       now apply (get_prop_throws clause "trustedIssuer"). }
  destruct (get_prop example "type") as [type|e2] eqn:E2; simpl.
  2: { intros H. injection H as <-. left. now apply (get_prop_throws example "type"). }
  destruct (mapM issuer_id _) as [issuers|e3] eqn:E3; simpl.
  - rewrite expand_spec. discriminate.
  - intros H. injection H as <-. now apply issuer_ids_throw in E3.
Qed.

(** [query.map(_query)]: one request per clause that passes, none for the
    others, and the clauses after a failing one are still started. *)
Lemma _query_dispatch_passes {St} (edv : client St) signer clause w :
  passes clause = true ->
  exists r equals,
    _query_dispatch edv signer clause w
    = (Normal r, mkWorld (snd (edv Find (find_request signer equals) (vault w)))
                   (push (log w) (Find, find_request signer equals))).
Proof.
  unfold passes, _query_dispatch.
  destruct (_query_criteria clause) as [query|] eqn:E; [|discriminate].
  intros _. apply _query_criteria_shape in E. destruct E as (ts & is' & ->).
  rewrite find_dispatch_criteria. unfold invoke.
  destruct (edv Find _ (vault w)) as [r s'] eqn:Ee. simpl.
  exists r, (map clause_spec (criteria_spec ts is')). now rewrite Ee.
Qed.

Lemma _query_dispatch_fails {St} (edv : client St) signer clause w :
  passes clause = false ->
  exists e, _query_criteria clause = Throw e
            /\ _query_dispatch edv signer clause w = (Throw e, w).
Proof.
  unfold passes, _query_dispatch.
  destruct (_query_criteria clause) as [query|e]; [discriminate|].
  intros _. now exists e.
Qed.

Lemma dispatch_all_log_length {St} (edv : client St) signer clauses w :
  List.length (log (snd (dispatch_all edv signer clauses w)))
  = List.length (log w) + List.length (filter passes clauses).
Proof.
  revert w. induction clauses as [|c cs IH]; intros w; simpl; [lia|].
  destruct (passes c) eqn:Ep.
  - destruct (_query_dispatch_passes edv signer c w Ep) as (r & eq & ->).
    specialize (IH (mkWorld (snd (edv Find (find_request signer eq) (vault w)))
                      (push (log w) (Find, find_request signer eq)))).
    destruct (dispatch_all edv signer cs _) as [ds w2]. simpl in *.
    rewrite IH. unfold push. rewrite length_app. simpl. lia.
  - destruct (_query_dispatch_fails edv signer c w Ep) as (e & _ & ->).
    specialize (IH w). destruct (dispatch_all edv signer cs w) as [ds w2].
    simpl in *. exact IH.
Qed.

Lemma dispatch_all_only_find {St} (edv : client St) signer clauses w :
  exists sent,
    log (snd (dispatch_all edv signer clauses w)) = (log w ++ sent)%list
    /\ Forall (fun call => fst call = Find) sent.
Proof.
  revert w. induction clauses as [|c cs IH]; intros w; simpl.
  - exists []. split; [now rewrite app_nil_r|constructor].
  - destruct (passes c) eqn:Ep.
    + destruct (_query_dispatch_passes edv signer c w Ep) as (r & eq & ->).
      destruct (IH (mkWorld (snd (edv Find (find_request signer eq) (vault w)))
                      (push (log w) (Find, find_request signer eq))))
        as (sent & Hl & Hf).
      destruct (dispatch_all edv signer cs _) as [ds w2]. simpl in *.
      exists ((Find, find_request signer eq) :: sent). split.
      * rewrite Hl. unfold push. now rewrite <- app_assoc.
      * now constructor.
    + destruct (_query_dispatch_fails edv signer c w Ep) as (e & _ & ->).
      destruct (IH w) as (sent & Hl & Hf).
      destruct (dispatch_all edv signer cs w) as [ds w2]. simpl in *.
      now exists sent.
Qed.

Lemma dispatch_all_none_pass {St} (edv : client St) signer clauses w :
  filter passes clauses = [] ->
  snd (dispatch_all edv signer clauses w) = w.
Proof.
  induction clauses as [|c cs IH]; simpl; [reflexivity|].
  destruct (passes c) eqn:Ep; [discriminate|]. intros H.
  destruct (_query_dispatch_fails edv signer c w Ep) as (e & _ & ->).
  specialize (IH H). destruct (dispatch_all edv signer cs w) as [ds w2].
  exact IH.
Qed.

Lemma dispatch_all_first_throw {St} (edv : client St) signer pre bad post e w :
  (forall c, In c pre -> passes c = true) ->
  _query_criteria bad = Throw e ->
  first_throw (fst (dispatch_all edv signer (pre ++ bad :: post) w)) = Some e.
Proof.
  intros Hp Hb. revert w. induction pre as [|c cs IH]; intros w; simpl.
  - unfold _query_dispatch. rewrite Hb.
    destruct (dispatch_all edv signer post w). reflexivity.
  - destruct (_query_dispatch_passes edv signer c w (Hp c (or_introl eq_refl)))
      as (r & eq & ->).
    specialize (IH (fun x Hx => Hp x (or_intror Hx))
                  (mkWorld (snd (edv Find (find_request signer eq) (vault w)))
                     (push (log w) (Find, find_request signer eq)))).
    destruct (dispatch_all edv signer (cs ++ bad :: post) _). exact IH.
Qed.

Lemma match_runs_queryByExample {St} (edv : client St) signer query engine w
  credentialQuery :
  get_prop query "type" = Normal (JStr "QueryByExample") ->
  get_prop query "credentialQuery" = Normal credentialQuery ->
  truthy credentialQuery = true ->
  String.eqb (typeof credentialQuery) "object" = true ->
  forall e,
    first_throw (fst (dispatch_all edv signer (as_array credentialQuery) w))
    = Some e ->
    match_ edv signer query engine w
    = (Rejected e, snd (dispatch_all edv signer (as_array credentialQuery) w)).
Proof.
  intros Ht Hc Htr Hty e Hf. unfold match_. rewrite Ht. simpl. rewrite Hc.
  unfold _queryByExample. rewrite Htr, Hty. simpl.
  destruct (dispatch_all edv signer (as_array credentialQuery) w) as [ds w'].
  simpl in *. unfold promise_all. rewrite Hf. reflexivity.
Qed.

Lemma clause_without_id_throws bad example before entry after :
  get_prop bad "example" = Normal example ->
  nullish example = false ->
  as_array (trustedIssuer_default (prop bad "trustedIssuer"))
  = (before ++ entry :: after)%list ->
  (forall e, In e before -> nullish e = false /\ truthy (prop e "id") = true) ->
  nullish entry = false ->
  truthy (prop entry "id") = false ->
  _query_criteria bad = Throw not_supported_error.
Proof.
  intros He Hn Hi Hb Hen Hid.
  rewrite (_query_criteria_spec bad example (prop example "type") _ He
             (get_prop_nullish _ _ Hn) Hi).
  rewrite (mapM_throws issuer_id before entry after not_supported_error).
  - reflexivity.
  - intros a Ha. destruct (Hb a Ha) as [Hna Hta]. unfold issuer_id.
    rewrite (get_prop_nullish _ _ Hna). simpl. rewrite Hta. simpl. eauto.
  - unfold issuer_id. rewrite (get_prop_nullish _ _ Hen). simpl.
    now rewrite Hid.
Qed.

(** Counterexample to C6 as stated: a clause whose example has no [type]
    raises nothing; its single criterion has an undefined type, the vault
    is asked for the empty clause, and what it answers is returned. *)
Lemma example_without_type_raises_nothing :
  _query_criteria clause_untyped = Normal [JObj [("type", JUndefined)]]
  /\ match_ scripted signer (QueryByExample clause_untyped) None
       (start [found [doc1]])
     = (Fulfilled (JArr [record_of doc1]),
        mkWorld [] [(Find, find_request signer [JObj []])]).
Proof. split; reflexivity. Qed.

(** C6, amended.  For every clause whose example has no [type] field the
    expander does not fail on that account: the type is normalised to the
    one-element array [[undefined]], the clause yields one criterion per
    trusted issuer (a single one when there is none), each with an
    undefined type, and [find] sends them as equality clauses without
    [content.type].  No clause makes the expander raise anything but the
    engine's [TypeError] or the [NotSupportedError] of a trusted issuer
    without id. *)
Theorem expander_accepts_example_without_type :
  (forall clause example entries,
      get_prop clause "example" = Normal example ->
      get_prop example "type" = Normal JUndefined ->
      as_array (trustedIssuer_default (prop clause "trustedIssuer")) = entries ->
      (forall e, In e entries ->
                 nullish e = false /\ truthy (prop e "id") = true) ->
      let issuers := map (fun e => prop e "id") entries in
      let equals :=
        match issuers with
        | [] => [JObj []]
        | _ => map (fun issuer => JObj [("meta.issuer", issuer)]) issuers
        end in
      _query_criteria clause = Normal (criteria_spec [JUndefined] issuers)
      /\ find_equals (JArr (criteria_spec [JUndefined] issuers)) = Normal equals
      /\ forall St (edv : client St) signer w,
           log (snd (_query_dispatch edv signer clause w))
           = push (log w) (Find, find_request signer equals))
  /\ (forall clause e,
         _query_criteria clause = Throw e ->
         error_name e = Some "TypeError" \/ e = not_supported_error).
Proof.
  split; [|exact _query_criteria_throws].
  intros clause example entries He Ht Hi Hall issuers equals.
  assert (Hq : _query_criteria clause = Normal (criteria_spec [JUndefined] issuers)).
  { rewrite (_query_criteria_spec _ _ _ _ He Ht Hi).
    rewrite (issuer_ids _ Hall). reflexivity. }
  assert (Hm : map clause_spec (criteria_spec [JUndefined] issuers) = equals).
  { unfold equals, criteria_spec. simpl. rewrite app_nil_r.
    assert (Htr : forall i, In i issuers -> truthy i = true).
    { intros i Hin. unfold issuers in Hin. rewrite in_map_iff in Hin.
      destruct Hin as (x & <- & Hx). now apply Hall. }
    destruct issuers as [|i iss]; [reflexivity|].
    rewrite map_map. apply map_ext_in. intros x Hx.
    unfold clause_spec, prop. simpl. now rewrite (Htr x Hx). }
  split; [exact Hq|]. split.
  - rewrite find_equals_spec.
    + cbn [as_array]. now rewrite Hm.
    + reflexivity.
    + cbn [as_array]. apply criteria_not_nullish.
  - intros St edv signer w. unfold _query_dispatch. rewrite Hq.
    rewrite find_dispatch_criteria. cbn [snd]. rewrite invoke_log. now rewrite Hm.
Qed.

(** Witness of C6: the clause [{example: {}, trustedIssuer: {id: "x"}}]. *)
Lemma expander_accepts_example_without_type_witness :
  _query_criteria
    (JObj [("example", JObj []); ("trustedIssuer", JObj [("id", JStr "x")])])
  = Normal [JObj [("type", JUndefined); ("issuer", JStr "x")]].
Proof.
  refine (proj1 (proj1 expander_accepts_example_without_type
                   (JObj [("example", JObj []);
                          ("trustedIssuer", JObj [("id", JStr "x")])])
                   (JObj []) [JObj [("id", JStr "x")]]
                   eq_refl eq_refl eq_refl _)).
  intros e [<-|[]]; split; reflexivity.
Defined.

(** Counterexample to C7 as stated: with a valid clause before or after
    the clause whose trusted issuer has no id, [match] raises the
    [NotSupportedError] and the vault has nevertheless been sent the
    request of the valid clause; and an entry whose id is the number 5,
    not a string, raises nothing. *)
Lemma trustedIssuer_without_id_after_a_request :
  match_ scripted signer (QueryByExample (JArr [clause_A; clause_no_id])) None
    (start [found []])
  = (Rejected not_supported_error,
     mkWorld [] [(Find, find_request signer [JObj [("content.type", JStr "A")]])])
  /\ match_ scripted signer (QueryByExample (JArr [clause_no_id; clause_A])) None
       (start [found []])
     = (Rejected not_supported_error,
        mkWorld [] [(Find, find_request signer [JObj [("content.type", JStr "A")]])])
  /\ _query_criteria clause_numeric_id
     = Normal [JObj [("type", JStr "A"); ("issuer", JNum 5)]]
  /\ fst (match_ scripted signer (QueryByExample clause_numeric_id) None
            (start [found []]))
     = Fulfilled (JArr []).
Proof. repeat split. Qed.

(** C7, amended.  For every QueryByExample query with a clause whose
    [trustedIssuer] holds an entry with an absent or falsy [id] (for
    example [{name: "x"}]), the clauses before it being valid, [match]
    raises a [NotSupportedError], for every position of the clause.  The
    vault is sent exactly one [find] request for each other clause that is
    valid, before or after the offending one; when there is none (a single
    clause, say) nothing is sent and the store is left as it was.  Entries
    whose [id] is truthy, string or not, are accepted with that id. *)
Theorem match_rejects_trustedIssuer_without_id :
  (forall St (edv : client St) signer query engine w credentialQuery
          pre bad post example before entry after,
      get_prop query "type" = Normal (JStr "QueryByExample") ->
      get_prop query "credentialQuery" = Normal credentialQuery ->
      truthy credentialQuery = true ->
      String.eqb (typeof credentialQuery) "object" = true ->
      as_array credentialQuery = (pre ++ bad :: post)%list ->
      (forall c, In c pre -> passes c = true) ->
      get_prop bad "example" = Normal example ->
      nullish example = false ->
      as_array (trustedIssuer_default (prop bad "trustedIssuer"))
      = (before ++ entry :: after)%list ->
      (forall e, In e before ->
                 nullish e = false /\ truthy (prop e "id") = true) ->
      nullish entry = false ->
      truthy (prop entry "id") = false ->
      let result := match_ edv signer query engine w in
      fst result = Rejected not_supported_error
      /\ error_name not_supported_error = Some "NotSupportedError"
      /\ (exists sent,
             log (snd result) = (log w ++ sent)%list
             /\ Forall (fun call => fst call = Find) sent
             /\ List.length sent = List.length (filter passes (pre ++ post)))
      /\ (filter passes (pre ++ post) = [] -> snd result = w))
  /\ (forall entries,
         (forall e, In e entries ->
                    nullish e = false /\ truthy (prop e "id") = true) ->
         mapM issuer_id entries = Normal (map (fun e => prop e "id") entries)).
Proof.
  split; [|exact issuer_ids].
  intros St edv signer query engine w cq pre bad post example before entry
    after Ht Hc Htr Hty Hcl Hpre He Hn Hi Hb Hen Hid result.
  pose proof (clause_without_id_throws _ _ _ _ _ He Hn Hi Hb Hen Hid) as Hbad.
  assert (Hres : result = (Rejected not_supported_error,
                           snd (dispatch_all edv signer (pre ++ bad :: post) w))).
  { unfold result. rewrite <- Hcl.
    apply match_runs_queryByExample; try assumption.
    rewrite Hcl. now apply dispatch_all_first_throw. }
  assert (Hfilter : filter passes (pre ++ bad :: post) = filter passes (pre ++ post)).
  { rewrite !filter_app. simpl. unfold passes at 2. now rewrite Hbad. }
  rewrite Hres. simpl. split; [reflexivity|]. split; [reflexivity|]. split.
  - destruct (dispatch_all_only_find edv signer (pre ++ bad :: post) w)
      as (sent & Hl & Hf).
    exists sent. split; [exact Hl|]. split; [exact Hf|].
    pose proof (dispatch_all_log_length edv signer (pre ++ bad :: post) w) as Hlen.
    rewrite Hl, length_app, Hfilter in Hlen. lia.
  - intros Hnone. apply dispatch_all_none_pass. now rewrite Hfilter.
Qed.

(** Witness of C7: the offending clause after a valid one, on the
    in-memory vault. *)
Lemma match_rejects_trustedIssuer_without_id_witness :
  fst (match_ memory signer (QueryByExample (JArr [clause_A; clause_no_id]))
         None (start [doc1]))
  = Rejected not_supported_error.
Proof.
  refine (proj1 (proj1 match_rejects_trustedIssuer_without_id
                   _ memory signer
                   (QueryByExample (JArr [clause_A; clause_no_id])) None
                   (start [doc1]) (JArr [clause_A; clause_no_id])
                   [clause_A] clause_no_id [] (JObj [("type", JStr "A")])
                   [] (JObj [("name", JStr "x")]) []
                   eq_refl eq_refl eq_refl eq_refl eq_refl _
                   eq_refl eq_refl eq_refl _ eq_refl eq_refl)).
  - intros c [<-|[]]. reflexivity.
  - intros e [].
Defined.

(** ** [insert] *)

Lemma lookup_assign_same k v props : lookup k (assign k v props) = Some v.
Proof.
  induction props as [|[k' v'] rest IH]; simpl.
  - now rewrite String.eqb_refl.
  - destruct (String.eqb k k') eqn:E; simpl; rewrite E; [reflexivity|exact IH].
Qed.

Lemma lookup_assign_other k k' v props :
  k' <> k -> lookup k' (assign k v props) = lookup k' props.
Proof.
  intros Hne. induction props as [|[k0 v0] rest IH]; simpl.
  - apply String.eqb_neq in Hne. now rewrite Hne.
  - destruct (String.eqb k k0) eqn:E; simpl.
    + apply String.eqb_eq in E. subst k0.
      apply String.eqb_neq in Hne. now rewrite Hne.
    + destruct (String.eqb k' k0); [reflexivity|exact IH].
Qed.

(** C9.  For every credential from which the validator derives an issuer
    identifier and every meta object (or none), [insert] submits a
    document whose [meta.issuer] is that identifier, whatever [meta] held
    before, with the credential as content; and what it returns for the
    vault's document holds the stored content and the document's id, and
    no [meta]. *)
Theorem insert_sets_meta_issuer :
  forall St (edv : client St) signer credential meta docId w issuer,
    _getIssuer credential = Normal issuer ->
    let meta0 := match meta with Some m => m | None => [] end in
    let request :=
      insert_request signer docId (assign "issuer" issuer meta0) credential in
    log (snd (insert edv signer credential meta docId w))
    = push (log w) (Insert, request)
    /\ prop (prop (prop request "doc") "meta") "issuer" = issuer
    /\ (forall k, k <> "issuer" ->
                  prop (prop (prop request "doc") "meta") k = prop (JObj meta0) k)
    /\ prop (prop request "doc") "content" = credential
    /\ prop (prop request "doc") "id" = docId
    /\ forall doc,
         fst (edv Insert request (vault w)) = Resolves doc ->
         nullish doc = false ->
         fst (insert edv signer credential meta docId w)
         = Fulfilled (JObj [("content", prop doc "content");
                            ("documentId", prop doc "id")])
         /\ get_prop (JObj [("content", prop doc "content");
                            ("documentId", prop doc "id")]) "meta"
            = Normal JUndefined.
Proof.
  intros St edv signer credential meta docId w issuer Hi meta0 request.
  unfold insert. cbv zeta. rewrite Hi.
  match goal with
  | |- context [invoke edv Insert ?rq w] => change rq with request
  end.
  pose proof (invoke_log edv Insert request w) as Hl.
  pose proof (invoke_reply edv Insert request w) as Hr.
  destruct (invoke edv Insert request w) as [r w']. simpl in Hl, Hr.
  split; [exact Hl|]. split.
  { unfold request, insert_request, prop. simpl.
    now rewrite lookup_assign_same. }
  split.
  { intros k Hk. unfold request, insert_request, prop. simpl.
    now rewrite (lookup_assign_other "issuer" k issuer meta0 Hk). }
  split; [reflexivity|]. split; [reflexivity|].
  intros doc Hd Hn. simpl. rewrite Hr, Hd. simpl.
  rewrite !(get_prop_nullish _ _ Hn). simpl. split; reflexivity.
Qed.

(** Witness of C9: a credential issued by [{id: "did:example:issuer"}]
    inserted with a meta object that already names another issuer. *)
Lemma insert_sets_meta_issuer_witness :
  log (snd (insert memory signer
              (JObj [("id", JStr "urn:1");
                     ("issuer", JObj [("id", JStr "did:example:issuer")])])
              (Some [("issuer", JStr "someone else"); ("displayable", JBool true)])
              JUndefined (start [])))
  = [(Insert,
      insert_request signer JUndefined
        [("issuer", JStr "did:example:issuer"); ("displayable", JBool true)]
        (JObj [("id", JStr "urn:1");
               ("issuer", JObj [("id", JStr "did:example:issuer")])]))].
Proof.
  exact (proj1 (insert_sets_meta_issuer
                  _ memory signer
                  (JObj [("id", JStr "urn:1");
                         ("issuer", JObj [("id", JStr "did:example:issuer")])])
                  (Some [("issuer", JStr "someone else");
                         ("displayable", JBool true)])
                  JUndefined (start []) (JStr "did:example:issuer") eq_refl)).
Defined.

(** An invalid credential is rejected before anything is sent. *)
Lemma insert_invalid_credential {St} (edv : client St) signer credential meta
  docId w e :
  _getIssuer credential = Throw e ->
  insert edv signer credential meta docId w = (Rejected e, w).
Proof. intros H. unfold insert. now rewrite H. Qed.

(** ** [get] *)

(** C8: the slip.  The body of [get] declares [id] although the parameter
    pattern binds it, the one such clash in the class; the language
    rejects the method when the source is parsed, so [get] returns no
    record. *)
Theorem get_redeclares_its_parameter :
  Scope.redeclared Scope.declared_get = ["id"]
  /\ Scope.early_error Scope.declared_get = true
  /\ forall m, In m Scope.class_methods ->
               Scope.early_error m = true -> m = Scope.declared_get.
Proof.
  split; [reflexivity|]. split; [reflexivity|].
  intros m Hin. simpl in Hin.
  repeat (destruct Hin as [<-|Hin]; [vm_compute; try discriminate; reflexivity|]).
  destruct Hin.
Qed.

(** With the two bindings of [id] kept apart, the body of [get] does what
    the description of the method says: it looks the id up under
    [content.id], fails with the [NotFoundError] when the answer holds no
    document, and otherwise returns the record of the first document. *)
Lemma get_body_spec {St} (edv : client St) signer id w res :
  fst (edv Find (lookup_request signer id) (vault w)) = Resolves res ->
  log (snd (get_body edv signer id w))
  = push (log w) (Find, lookup_request signer id)
  /\ (get_prop res "documents" = Normal (JArr []) ->
      fst (get_body edv signer id w) = Rejected not_found_error)
  /\ (forall doc rest,
         get_prop res "documents" = Normal (JArr (doc :: rest)) ->
         truthy doc = true ->
         fst (get_body edv signer id w) = Fulfilled (record_of doc))
  /\ error_name not_found_error = Some "NotFoundError".
Proof.
  intros Hr. unfold get_body.
  pose proof (invoke_log edv Find (lookup_request signer id) w) as Hl.
  pose proof (invoke_reply edv Find (lookup_request signer id) w) as Hre.
  destruct (invoke edv Find (lookup_request signer id) w) as [r w1].
  simpl in *. rewrite Hre, Hr. simpl.
  split; [exact Hl|]. split; [|split; [|reflexivity]].
  - intros ->. reflexivity.
  - intros doc rest -> Ht. simpl. rewrite Ht. simpl.
    rewrite !(get_prop_nullish _ _ (truthy_not_nullish _ Ht)). reflexivity.
Qed.

(** ** Further properties of the store *)

(** *** The constructor *)



(** *** [match] and [_queryByExample]: guards, empty input, results *)

(** X2.  A QueryByExample query whose [credentialQuery] is absent or falsy
    is rejected with the error '"credentialQuery" is needed to execute a
    QueryByExample.', and one whose [credentialQuery] is a string, a number
    or [true] with the error '"credentialQuery" must be an object or an
    array.'; in both cases nothing is sent to the vault. *)
Theorem match_checks_credentialQuery :
  forall St (edv : client St) signer query engine w credentialQuery,
    get_prop query "type" = Normal (JStr "QueryByExample") ->
    get_prop query "credentialQuery" = Normal credentialQuery ->
    (truthy credentialQuery = false ->
     match_ edv signer query engine w = (Rejected credentialQuery_needed_error, w))
    /\ (truthy credentialQuery = true ->
        (forall l, credentialQuery <> JArr l) ->
        (forall props, credentialQuery <> JObj props) ->
        match_ edv signer query engine w = (Rejected credentialQuery_shape_error, w))
    /\ error_message credentialQuery_needed_error
       = Some (dq ++ "credentialQuery" ++ dq ++
               " is needed to execute a QueryByExample.")
    /\ error_message credentialQuery_shape_error
       = Some (dq ++ "credentialQuery" ++ dq ++ " must be an object or an array.").
Proof.
  intros St edv signer query engine w cq Ht Hc.
  unfold match_. rewrite Ht. simpl. rewrite Hc. unfold _queryByExample.
  split; [|split; [|split; reflexivity]].
  - intros ->. reflexivity.
  - intros Htr Ha Ho. rewrite Htr. simpl.
    destruct cq; simpl in *; try reflexivity; try discriminate.
    + now destruct (Ha elems).
    + now destruct (Ho props).
Qed.

(** Witness of X2: no [credentialQuery] at all, and a string in its place. *)
Lemma match_checks_credentialQuery_witness :
  match_ scripted signer (JObj [("type", JStr "QueryByExample")]) None (start [])
  = (Rejected credentialQuery_needed_error, start [])
  /\ match_ scripted signer (QueryByExample (JStr "A")) None (start [])
     = (Rejected credentialQuery_shape_error, start []).
Proof.
  split.
  - exact (proj1 (match_checks_credentialQuery
                    _ scripted signer (JObj [("type", JStr "QueryByExample")])
                    None (start []) JUndefined eq_refl eq_refl) eq_refl).
  - refine (proj1 (proj2 (match_checks_credentialQuery
                            _ scripted signer (QueryByExample (JStr "A"))
                            None (start []) (JStr "A") eq_refl eq_refl))
              eq_refl _ _); intros x; discriminate.
Defined.

(** X3.  Empty input.  A QueryByExample query with an empty array of
    clauses returns the empty array and sends nothing.  A clause whose
    example has the empty array as [type] builds no criterion, and its one
    request asks the vault with an empty list of equality clauses. *)
Theorem match_empty_inputs :
  (forall St (edv : client St) signer query engine w,
      get_prop query "type" = Normal (JStr "QueryByExample") ->
      get_prop query "credentialQuery" = Normal (JArr []) ->
      match_ edv signer query engine w = (Fulfilled (JArr []), w))
  /\ (forall clause example entries,
         get_prop clause "example" = Normal example ->
         get_prop example "type" = Normal (JArr []) ->
         as_array (trustedIssuer_default (prop clause "trustedIssuer")) = entries ->
         (forall e, In e entries ->
                    nullish e = false /\ truthy (prop e "id") = true) ->
         _query_criteria clause = Normal []
         /\ forall St (edv : client St) signer w,
              log (snd (_query_dispatch edv signer clause w))
              = push (log w) (Find, find_request signer [])).
Proof.
  split.
  - intros St edv signer query engine w Ht Hc.
    unfold match_. rewrite Ht. simpl. rewrite Hc.
    unfold _queryByExample. simpl. destruct engine; reflexivity.
  - intros clause example entries He Ht Hi Hall.
    assert (Hq : _query_criteria clause = Normal []).
    { rewrite (_query_criteria_spec _ _ _ _ He Ht Hi).
      rewrite (issuer_ids _ Hall). reflexivity. }
    split; [exact Hq|]. intros St edv signer w.
    unfold _query_dispatch. rewrite Hq.
    unfold find_dispatch. simpl.
    pose proof (invoke_log edv Find (find_request signer []) w) as Hl.
    destruct (invoke edv Find (find_request signer []) w). exact Hl.
Qed.

(** Witness of X3: the query [{type: "QueryByExample", credentialQuery: []}]
    and the clause [{example: {type: []}, trustedIssuer: {id: "x"}}]. *)
Lemma match_empty_inputs_witness :
  match_ scripted signer (QueryByExample (JArr [])) None (start [found [doc1]])
  = (Fulfilled (JArr []), start [found [doc1]])
  /\ _query_criteria (example_clause (JArr []) (JObj [("id", JStr "x")]))
     = Normal [].
Proof.
  split.
  - exact (proj1 match_empty_inputs _ scripted signer
             (QueryByExample (JArr [])) None (start [found [doc1]])
             eq_refl eq_refl).
  - refine (proj1 (proj2 match_empty_inputs
                     (example_clause (JArr []) (JObj [("id", JStr "x")]))
                     (JObj [("type", JArr [])]) [JObj [("id", JStr "x")]]
                     eq_refl eq_refl eq_refl _)).
    intros e [<-|[]]. split; reflexivity.
Defined.







Lemma mapM_Normal (l : list value) : mapM (fun c => Normal c) l = Normal l.
Proof.
  induction l as [|x xs IH]; simpl; [reflexivity|]. now rewrite IH.
Qed.



(** X5.  The result transform of [match] is applied last, to each record
    in order: with a transform, [match] returns the transformed records of
    what it returns without one, and is rejected with the error of the
    first record on which the transform throws.  The transform changes
    neither a rejection nor the requests sent to the vault. *)
Theorem match_applies_engine_last :
  forall St (edv : client St) signer query engine w,
    (forall results w',
        match_ edv signer query None w = (Fulfilled (JArr results), w') ->
        match_ edv signer query (Some engine) w
        = (settle (rs <- mapM engine results ;; Normal (JArr rs)), w'))
    /\ (forall e w',
           match_ edv signer query None w = (Rejected e, w') ->
           match_ edv signer query (Some engine) w = (Rejected e, w'))
    /\ snd (match_ edv signer query (Some engine) w)
       = snd (match_ edv signer query None w).
Proof.
  intros St edv signer query engine w. unfold match_.
  destruct (get_prop query "type") as [type|e0].
  2: { repeat split; intros; try discriminate; assumption. }
  destruct (is_QueryByExample type).
  2: { repeat split; intros; try discriminate; assumption. }
  destruct (get_prop query "credentialQuery") as [cq|e1].
  2: { repeat split; intros; try discriminate; assumption. }
  destruct (_queryByExample edv signer cq w) as [[results|e|es] w1].
  - rewrite mapM_Normal. simpl. repeat split.
    + intros rs w' H. injection H as <- <-. reflexivity.
    + intros e w' H. discriminate.
  - repeat split; intros; try discriminate; assumption.
  - repeat split; intros; discriminate.
Qed.

(** Witness of X5: a transform that keeps the [content] of each record. *)
Lemma match_applies_engine_last_witness :
  match_ scripted signer (QueryByExample clause_A)
    (Some (fun c => get_prop c "content")) (start [found [doc1]])
  = (Fulfilled (JArr [prop doc1 "content"]),
     mkWorld [] [(Find, find_request signer [JObj [("content.type", JStr "A")]])]).
Proof.
  exact (proj1 (match_applies_engine_last
                  _ scripted signer (QueryByExample clause_A)
                  (fun c => get_prop c "content") (start [found [doc1]]))
           [record_of doc1]
           (mkWorld [] [(Find, find_request signer
                                 [JObj [("content.type", JStr "A")]])])
           eq_refl).
Defined.

(** *** Scalars and arrays *)

(** X6.  A query given as a single value is treated as the array of that
    one value: [find] of a filter spec that is not an array does what
    [find] of the one-element array of it does, and a [credentialQuery]
    that is one clause object does in [match] what the one-element array
    of that clause does. *)
Theorem scalar_query_is_singleton_array :
  (forall St (edv : client St) signer query w,
      isArray query = false -> truthy query = true ->
      find edv signer query w = find edv signer (JArr [query]) w)
  /\ (forall St (edv : client St) signer props type engine w,
         match_ edv signer
           (JObj [("type", type); ("credentialQuery", JObj props)]) engine w
         = match_ edv signer
             (JObj [("type", type); ("credentialQuery", JArr [JObj props])])
             engine w).
Proof.
  split.
  - intros St edv signer query w Ha Ht.
    unfold find, find_dispatch, find_equals. rewrite Ht. simpl.
    destruct query; simpl in *; try discriminate; reflexivity.
  - intros St edv signer props type engine w. reflexivity.
Qed.

(** Witness of X6: the filter spec [{type: "A"}] alone and in an array. *)
Lemma scalar_query_is_singleton_array_witness :
  find memory signer (JObj [("type", JStr "A")]) (start [doc1])
  = find memory signer (JArr [JObj [("type", JStr "A")]]) (start [doc1]).
Proof.
  exact (proj1 scalar_query_is_singleton_array _ memory signer
           (JObj [("type", JStr "A")]) (start [doc1]) eq_refl eq_refl).
Defined.

(** X7.  Inside a clause, a single type stands for the array of that type,
    and a single trusted issuer for the array of that issuer: the clause
    [{example: {type: t}, trustedIssuer: i}] builds the criteria of
    [{example: {type: [t]}, trustedIssuer: [i]}], for every [t] that is not
    an array and every [i] that is neither an array nor [undefined].  An
    [undefined] trusted issuer stands for the empty array instead, a
    [null] one does not: it is destructured and raises a [TypeError]. *)
Theorem scalar_clause_fields_are_singleton_arrays :
  (forall type trustedIssuer,
      isArray type = false -> isArray trustedIssuer = false ->
      trustedIssuer <> JUndefined ->
      _query_criteria (example_clause type trustedIssuer)
      = _query_criteria (example_clause (JArr [type]) (JArr [trustedIssuer])))
  /\ (forall type,
         _query_criteria (example_clause type JUndefined)
         = _query_criteria (example_clause type (JArr [])))
  /\ (forall type,
         _query_criteria (example_clause type JNull)
         = Throw (nullish_TypeError "id")).
Proof.
  split; [|split].
  - intros type ti Ht Hi Hu. unfold _query_criteria, example_clause. simpl.
    destruct ti; simpl in *; try discriminate; try contradiction;
      destruct type; simpl in *; try discriminate; reflexivity.
  - intros type. reflexivity.
  - intros type. reflexivity.
Qed.

(** Witness of X7: type ["A"] and trusted issuer [{id: "x"}]. *)
Lemma scalar_clause_fields_are_singleton_arrays_witness :
  _query_criteria (example_clause (JStr "A") (JObj [("id", JStr "x")]))
  = _query_criteria
      (example_clause (JArr [JStr "A"]) (JArr [JObj [("id", JStr "x")]])).
Proof.
  refine (proj1 scalar_clause_fields_are_singleton_arrays
            (JStr "A") (JObj [("id", JStr "x")]) eq_refl eq_refl _).
  discriminate.
Defined.

(** *** [_getIssuer] and [insert] *)

(** X8.  Whatever [_getIssuer] returns is a string: the issuer itself,
    which is then not empty, or the [id] of an issuer that is not a
    string. *)
Theorem getIssuer_returns_a_string :
  forall credential v,
    _getIssuer credential = Normal v ->
    exists s,
      v = JStr s
      /\ (prop credential "issuer" = JStr s /\ s <> ""
          \/ (forall s', prop credential "issuer" <> JStr s')
             /\ prop (prop credential "issuer") "id" = JStr s).
Proof.
  intros credential v. unfold _getIssuer.
  destruct (get_prop credential "issuer") as [issuer|e] eqn:Hi; simpl;
    [|discriminate].
  apply get_prop_normal in Hi. destruct Hi as [_ Hp]. rewrite Hp.
  destruct (truthy issuer) eqn:Ht; simpl; [|discriminate].
  destruct (String.eqb (typeof issuer) "string") eqn:Es; simpl.
  - apply typeof_string in Es. destruct Es as (s & ->).
    intros H. injection H as <-. exists s. split; [reflexivity|]. left.
    split; [reflexivity|]. intros ->. discriminate.
  - assert (Hns : forall s', issuer <> JStr s').
    { intros s' ->. discriminate. }
    rewrite (get_prop_nullish _ _ (truthy_not_nullish _ Ht)). simpl.
    destruct (String.eqb (typeof (prop issuer "id")) "string") eqn:Ei; simpl;
      [|discriminate].
    apply typeof_string in Ei. destruct Ei as (s & Hs).
    intros H. injection H as <-. exists s. split; [exact Hs|]. right.
    now split.
Qed.

(** Witness of X8: an issuer object with an id. *)
Lemma getIssuer_returns_a_string_witness :
  exists s,
    JStr "did:example:issuer" = JStr s
    /\ (prop (JObj [("issuer", JObj [("id", JStr "did:example:issuer")])]) "issuer"
        = JStr s /\ s <> ""
        \/ (forall s',
               prop (JObj [("issuer", JObj [("id", JStr "did:example:issuer")])])
                 "issuer" <> JStr s')
           /\ prop (prop (JObj [("issuer",
                                 JObj [("id", JStr "did:example:issuer")])])
                      "issuer") "id" = JStr s).
Proof.
  exact (getIssuer_returns_a_string
           (JObj [("issuer", JObj [("id", JStr "did:example:issuer")])])
           (JStr "did:example:issuer") eq_refl).
Defined.

(** X9.  [insert] validates before it sends: a credential that
    [_getIssuer] refuses, a missing credential included, is rejected with
    that error and the vault is not called.  Once the document is sent, a
    failure of the vault, thrown or as a rejected promise, is passed on
    unchanged, and an answer that is [undefined] or [null] becomes a
    [TypeError]. *)
Theorem insert_validates_then_passes_vault_errors :
  forall St (edv : client St) signer credential meta docId w,
    (forall e, _getIssuer credential = Throw e ->
               insert edv signer credential meta docId w = (Rejected e, w))
    /\ (nullish credential = true ->
        insert edv signer credential meta docId w
        = (Rejected (nullish_TypeError "issuer"), w))
    /\ (forall issuer,
           _getIssuer credential = Normal issuer ->
           let request :=
             insert_request signer docId
               (assign "issuer" issuer
                  match meta with Some m => m | None => [] end)
               credential in
           (forall e, await (fst (edv Insert request (vault w))) = Throw e ->
                      fst (insert edv signer credential meta docId w) = Rejected e)
           /\ (forall doc,
                  fst (edv Insert request (vault w)) = Resolves doc ->
                  nullish doc = true ->
                  fst (insert edv signer credential meta docId w)
                  = Rejected (nullish_TypeError "content"))).
Proof.
  intros St edv signer credential meta docId w. split; [|split].
  - intros e H. now apply insert_invalid_credential.
  - intros Hn. apply insert_invalid_credential.
    destruct credential; simpl in Hn; try discriminate; reflexivity.
  - intros issuer Hi request. unfold insert. cbv zeta. rewrite Hi.
    match goal with
    | |- context [invoke edv Insert ?rq w] => change rq with request
    end.
    pose proof (invoke_reply edv Insert request w) as Hr.
    destruct (invoke edv Insert request w) as [r w']. simpl in Hr. simpl.
    rewrite Hr. split.
    + intros e ->. reflexivity.
    + intros doc -> Hn. simpl.
      destruct doc; simpl in Hn; try discriminate; reflexivity.
Qed.

(** Witness of X9: a credential without issuer, and a valid credential
    whose insertion the vault rejects as a duplicate. *)
Lemma insert_validates_then_passes_vault_errors_witness :
  insert scripted signer (JObj [("id", JStr "urn:1")]) None JUndefined (start [])
  = (Rejected missing_issuer_error, start [])
  /\ fst (insert scripted signer
            (JObj [("id", JStr "urn:1"); ("issuer", JStr "x")]) None JUndefined
            (start [Rejects duplicate_error]))
     = Rejected duplicate_error.
Proof.
  split.
  - exact (proj1 (insert_validates_then_passes_vault_errors
                    _ scripted signer (JObj [("id", JStr "urn:1")]) None
                    JUndefined (start [])) missing_issuer_error eq_refl).
  - exact (proj1 (proj2 (proj2 (insert_validates_then_passes_vault_errors
                    _ scripted signer
                    (JObj [("id", JStr "urn:1"); ("issuer", JStr "x")]) None
                    JUndefined (start [Rejects duplicate_error])))
                    (JStr "x") eq_refl) duplicate_error eq_refl).
Defined.

(** *** [find]: what can go wrong *)

(** X10.  Once [find] has sent its request, a failure of the vault, thrown
    or as a rejected promise, is passed on unchanged; an answer that is
    [undefined] or [null], an answer whose [documents] is not an array,
    and a document that is [undefined] or [null] each end [find] with a
    [TypeError]. *)
Theorem find_passes_vault_errors :
  forall St (edv : client St) signer query w equals,
    find_equals query = Normal equals ->
    let r := fst (edv Find (find_request signer equals) (vault w)) in
    (forall e, await r = Throw e ->
               fst (find edv signer query w) = Rejected e)
    /\ (forall res, r = Resolves res -> nullish res = true ->
                    fst (find edv signer query w)
                    = Rejected (nullish_TypeError "documents"))
    /\ (forall res docs,
           r = Resolves res ->
           get_prop res "documents" = Normal docs ->
           isArray docs = false ->
           exists e, fst (find edv signer query w) = Rejected e
                     /\ error_name e = Some "TypeError")
    /\ (forall res before bad after,
           r = Resolves res ->
           get_prop res "documents" = Normal (JArr (before ++ bad :: after)) ->
           (forall d, In d before -> nullish d = false) ->
           nullish bad = true ->
           fst (find edv signer query w)
           = Rejected (nullish_TypeError "content")).
Proof.
  intros St edv signer query w equals He r.
  unfold find, find_dispatch. rewrite He.
  pose proof (invoke_reply edv Find (find_request signer equals) w) as Hr.
  destruct (invoke edv Find (find_request signer equals) w) as [r' w'].
  simpl in Hr. simpl. rewrite Hr. fold r. unfold find_settle.
  split; [|split; [|split]].
  - intros e ->. reflexivity.
  - intros res -> Hn. simpl.
    destruct res; simpl in Hn; try discriminate; reflexivity.
  - intros res docs -> Hd Ha. simpl. unfold find_records. rewrite Hd. simpl.
    destruct docs; simpl in Ha; try discriminate; eexists; split; reflexivity.
  - intros res before bad after -> Hd Hb Hn. simpl.
    unfold find_records. rewrite Hd. simpl.
    rewrite (mapM_throws to_record before bad after (nullish_TypeError "content")).
    + reflexivity.
    + intros a Ha. exists (record_of a). apply to_record_spec. now apply Hb.
    + destruct bad; simpl in Hn; try discriminate; reflexivity.
Qed.

(** Witness of X10: the vault rejects the request with a status 500. *)
Lemma find_passes_vault_errors_witness :
  fst (find scripted signer (JObj [("type", JStr "A")])
         (start [Rejects (transport_error 500)]))
  = Rejected (transport_error 500).
Proof.
  exact (proj1 (find_passes_vault_errors
                  _ scripted signer (JObj [("type", JStr "A")])
                  (start [Rejects (transport_error 500)])
                  [JObj [("content.type", JStr "A")]] eq_refl)
           (transport_error 500) eq_refl).
Defined.

(** X11.  A filter spec that is [undefined] or [null] makes [find] fail
    with a [TypeError] before anything is sent, wherever it stands in the
    query array; every other value is accepted as a filter spec. *)
Theorem find_rejects_nullish_filter_spec :
  forall St (edv : client St) signer query w before bad after,
    truthy query = true ->
    as_array query = (before ++ bad :: after)%list ->
    (forall spec, In spec before -> nullish spec = false) ->
    nullish bad = true ->
    find edv signer query w = (Rejected (nullish_TypeError "type"), w)
    /\ error_name (nullish_TypeError "type") = Some "TypeError".
Proof.
  intros St edv signer query w before bad after Ht Ha Hb Hn.
  split; [|reflexivity].
  unfold find, find_dispatch, find_equals. rewrite Ht, Ha. simpl.
  rewrite for_of_push_mapM.
  rewrite (mapM_throws find_entry before bad after (nullish_TypeError "type")).
  - reflexivity.
  - intros a Hin. exists (clause_spec a). apply find_entry_spec. now apply Hb.
  - destruct bad; simpl in Hn; try discriminate; reflexivity.
Qed.

(** Witness of X11: the query [[{type: "A"}, null]]. *)
Lemma find_rejects_nullish_filter_spec_witness :
  find memory signer (JArr [JObj [("type", JStr "A")]; JNull]) (start [doc1])
  = (Rejected (nullish_TypeError "type"), start [doc1]).
Proof.
  refine (proj1 (find_rejects_nullish_filter_spec
                   _ memory signer (JArr [JObj [("type", JStr "A")]; JNull])
                   (start [doc1]) [JObj [("type", JStr "A")]] JNull []
                   eq_refl eq_refl _ eq_refl)).
  intros spec [<-|[]]. reflexivity.
Defined.

(** *** What each operation sends to the vault *)

Lemma find_dispatch_sends {St} (edv : client St) signer query w :
  snd (find_dispatch edv signer query w) = w
  \/ exists equals,
       log (snd (find_dispatch edv signer query w))
       = push (log w) (Find, find_request signer equals).
Proof.
  unfold find_dispatch. destruct (find_equals query) as [equals|e].
  - right. exists equals.
    pose proof (invoke_log edv Find (find_request signer equals) w) as Hl.
    destruct (invoke edv Find (find_request signer equals) w). exact Hl.
  - now left.
Qed.

(** X12.  [find] and [match] only read: [find] sends at most one request,
    a [find] request, and [match] sends [find] requests only, at most one
    per clause of the query; neither ever asks the vault to insert, delete
    or index. *)
Theorem find_and_match_only_read :
  forall St (edv : client St) signer query engine w,
    (exists sent,
        log (snd (find edv signer query w)) = (log w ++ sent)%list
        /\ Forall (fun call => fst call = Find) sent
        /\ List.length sent <= 1)
    /\ (exists sent,
           log (snd (match_ edv signer query engine w)) = (log w ++ sent)%list
           /\ Forall (fun call => fst call = Find) sent
           /\ List.length sent
              <= List.length (as_array (prop query "credentialQuery"))).
Proof.
  intros St edv signer query engine w. split.
  - unfold find.
    destruct (find_dispatch_sends edv signer query w) as [H|(equals & H)];
      destruct (find_dispatch edv signer query w) as [[r|e] w']; simpl in *.
    + subst w'. exists []. rewrite app_nil_r. repeat split; auto.
    + subst w'. exists []. rewrite app_nil_r. repeat split; auto.
    + exists [(Find, find_request signer equals)].
      split; [exact H|]. split; [repeat constructor|simpl; lia].
    + exists [(Find, find_request signer equals)].
      split; [exact H|]. split; [repeat constructor|simpl; lia].
  - assert (Hnone : exists sent,
               log w = (log w ++ sent)%list
               /\ Forall (fun call : method * value => fst call = Find) sent
               /\ List.length sent
                  <= List.length (as_array (prop query "credentialQuery"))).
    { exists []. rewrite app_nil_r. repeat split; auto. simpl. lia. }
    unfold match_.
    destruct (get_prop query "type") as [type|e0]; [|exact Hnone].
    destruct (is_QueryByExample type); [|exact Hnone].
    destruct (get_prop query "credentialQuery") as [cq|e1] eqn:Hc;
      [|exact Hnone].
    apply get_prop_normal in Hc. destruct Hc as [_ Hc]. rewrite Hc in Hnone.
    rewrite Hc. unfold _queryByExample.
    destruct (negb (truthy cq)); [exact Hnone|].
    destruct (negb (String.eqb (typeof cq) "object")); [exact Hnone|].
    destruct (dispatch_all_only_find edv signer (as_array cq) w)
      as (sent & Hl & Hf).
    pose proof (dispatch_all_log_length edv signer (as_array cq) w) as Hlen.
    pose proof (filter_length_le passes (as_array cq)) as Hle.
    destruct (dispatch_all edv signer (as_array cq) w) as [ds w'].
    simpl in *.
    assert (Hs : exists sent0,
               log w' = (log w ++ sent0)%list
               /\ Forall (fun call : method * value => fst call = Find) sent0
               /\ List.length sent0 <= List.length (as_array cq)).
    { exists sent. split; [exact Hl|]. split; [exact Hf|].
      rewrite Hl, length_app in Hlen. lia. }
    destruct (promise_all ds) as [rs|e|es]; simpl; exact Hs.
Qed.

Lemma insert_log {St} (edv : client St) signer credential meta docId w issuer :
  _getIssuer credential = Normal issuer ->
  log (snd (insert edv signer credential meta docId w))
  = push (log w)
      (Insert,
       insert_request signer docId
         (assign "issuer" issuer match meta with Some m => m | None => [] end)
         credential).
Proof.
  intros Hi. unfold insert. cbv zeta. rewrite Hi.
  match goal with
  | |- context [invoke edv Insert ?rq w] =>
      pose proof (invoke_log edv Insert rq w) as Hl;
      destruct (invoke edv Insert rq w)
  end.
  exact Hl.
Qed.

(** X13.  [insert] sends nothing or exactly one [insert] request, whose
    document carries a string as [meta.issuer]; [delete] always sends the
    lookup by [content.id] first and then at most one [delete] request,
    for a document the lookup returned. *)
Theorem insert_and_delete_requests :
  forall St (edv : client St) signer w,
    (forall credential meta docId,
        snd (insert edv signer credential meta docId w) = w
        \/ exists s,
             _getIssuer credential = Normal (JStr s)
             /\ log (snd (insert edv signer credential meta docId w))
                = push (log w)
                    (Insert,
                     insert_request signer docId
                       (assign "issuer" (JStr s)
                          match meta with Some m => m | None => [] end)
                       credential))
    /\ (forall id,
           log (snd (delete edv signer id w))
           = push (log w) (Find, lookup_request signer id)
           \/ exists doc,
                lookup_phase (fst (invoke edv Find (lookup_request signer id) w))
                = Normal doc
                /\ truthy doc = true
                /\ log (snd (delete edv signer id w))
                   = push (push (log w) (Find, lookup_request signer id))
                       (Delete, delete_request signer doc)).
Proof.
  intros St edv signer w. split.
  - intros credential meta docId.
    destruct (_getIssuer credential) as [issuer|e] eqn:Hi.
    + right. destruct (getIssuer_returns_a_string _ _ Hi) as (s & -> & _).
      exists s. split; [reflexivity|].
      now apply insert_log.
    + left. now rewrite (insert_invalid_credential edv signer _ meta docId w e Hi).
  - intros id. rewrite delete_unfold. cbv zeta.
    destruct (lookup_phase (fst (invoke edv Find (lookup_request signer id) w)))
      as [doc|e].
    + destruct (truthy doc) eqn:Ht; simpl.
      * right. exists doc. split; [reflexivity|]. split; [exact Ht|].
        destruct (fst (invoke edv Delete (delete_request signer doc) _));
          simpl; now rewrite !invoke_log.
      * left. apply invoke_log.
    + left. apply invoke_log.
Qed.

(** *** [delete]: which document, which status *)

(** X14.  [delete] acts on the first document of the lookup's answer and on
    no other: when that document is there, the one [delete] request is for
    it, whatever else the answer holds, and what the vault answers is
    returned as it is; when the answer is empty, or its first element is
    falsy, [delete] returns [false] without a [delete] request. *)
Theorem delete_acts_on_first_document :
  forall St (edv : client St) signer id w res documents,
    fst (edv Find (lookup_request signer id) (vault w)) = Resolves res ->
    get_prop res "documents" = Normal (JArr documents) ->
    (forall doc rest,
        documents = doc :: rest -> truthy doc = true ->
        log (snd (delete edv signer id w))
        = push (push (log w) (Find, lookup_request signer id))
            (Delete, delete_request signer doc)
        /\ forall v,
             fst (edv Delete (delete_request signer doc)
                    (snd (edv Find (lookup_request signer id) (vault w))))
             = Resolves v ->
             fst (delete edv signer id w) = Fulfilled v)
    /\ (documents = []
        \/ (exists doc rest, documents = doc :: rest /\ truthy doc = false) ->
        fst (delete edv signer id w) = Fulfilled (JBool false)
        /\ log (snd (delete edv signer id w))
           = push (log w) (Find, lookup_request signer id)).
Proof.
  intros St edv signer id w res documents Hr Hd.
  rewrite delete_unfold. cbv zeta.
  rewrite invoke_reply, Hr. unfold lookup_phase. simpl. rewrite Hd. simpl.
  split.
  - intros doc rest -> Ht. simpl. rewrite Ht. simpl. split.
    + destruct (fst (invoke edv Delete (delete_request signer doc) _));
        simpl; now rewrite !invoke_log.
    + intros v Hv.
      assert (Hw : vault (snd (invoke edv Find (lookup_request signer id) w))
                   = snd (edv Find (lookup_request signer id) (vault w))).
      { unfold invoke. destruct (edv Find _ (vault w)); reflexivity. }
      rewrite invoke_reply, Hw, Hv. reflexivity.
  - intros [->|(doc & rest & -> & Ht)]; simpl.
    + split; [reflexivity|apply invoke_log].
    + rewrite Ht. simpl. split; [reflexivity|apply invoke_log].
Qed.

(** Witness of X14: the lookup answers with two documents and the vault
    answers the deletion with a string. *)
Lemma delete_acts_on_first_document_witness :
  let w := start [found [doc1; JObj [("id", JStr "doc-2")]];
                  Resolves (JStr "gone")] in
  log (snd (delete scripted signer (JStr "urn:1") w))
  = [(Find, lookup_request signer (JStr "urn:1"));
     (Delete, delete_request signer doc1)]
  /\ fst (delete scripted signer (JStr "urn:1") w) = Fulfilled (JStr "gone").
Proof.
  pose (w := start [found [doc1; JObj [("id", JStr "doc-2")]];
                    Resolves (JStr "gone")]).
  destruct (proj1 (delete_acts_on_first_document
                     _ scripted signer (JStr "urn:1") w
                     (JObj [("documents",
                             JArr [doc1; JObj [("id", JStr "doc-2")]])])
                     [doc1; JObj [("id", JStr "doc-2")]] eq_refl eq_refl)
              doc1 [JObj [("id", JStr "doc-2")]] eq_refl eq_refl) as [Hl Hv].
  split; [exact Hl|exact (Hv (JStr "gone") eq_refl)].
Defined.

(** X15.  When the lookup of [delete] fails with an error that carries a
    response, [delete] returns [false] exactly when the status of the
    response is the number 404; with any other status, the string "404"
    included, the error is raised again unchanged.  No [delete] request is
    sent either way. *)
Theorem delete_lookup_404_only :
  forall St (edv : client St) signer id w e response status,
    await (fst (edv Find (lookup_request signer id) (vault w))) = Throw e ->
    get_prop e "response" = Normal response ->
    get_prop response "status" = Normal status ->
    (status = JNum 404 ->
     fst (delete edv signer id w) = Fulfilled (JBool false))
    /\ (status <> JNum 404 -> fst (delete edv signer id w) = Rejected e)
    /\ log (snd (delete edv signer id w))
       = push (log w) (Find, lookup_request signer id).
Proof.
  intros St edv signer id w e response status Ha Hr Hs.
  rewrite delete_unfold. cbv zeta.
  rewrite invoke_reply. unfold lookup_phase. rewrite Ha. simpl.
  unfold delete_catch. rewrite Hr. simpl. rewrite Hs. simpl.
  split; [|split; [|apply invoke_log]].
  - intros ->. reflexivity.
  - intros Hne. destruct (is_404 status) eqn:E; [|reflexivity].
    destruct status; simpl in E; try discriminate.
    apply Z.eqb_eq in E. subst. contradiction.
Qed.

(** Witness of X15: the lookup is rejected with status 404, and with the
    status given as the string "404". *)
Lemma delete_lookup_404_only_witness :
  fst (delete scripted signer (JStr "urn:1")
         (start [Rejects (transport_error 404)]))
  = Fulfilled (JBool false)
  /\ fst (delete scripted signer (JStr "urn:1")
            (start [Rejects (JObj [("response", JObj [("status", JStr "404")])])]))
     = Rejected (JObj [("response", JObj [("status", JStr "404")])]).
Proof.
  split.
  - exact (proj1 (delete_lookup_404_only
                    _ scripted signer (JStr "urn:1")
                    (start [Rejects (transport_error 404)])
                    (transport_error 404) (JObj [("status", JNum 404)])
                    (JNum 404) eq_refl eq_refl eq_refl) eq_refl).
  - refine (proj1 (proj2 (delete_lookup_404_only
                    _ scripted signer (JStr "urn:1")
                    (start [Rejects (JObj [("response",
                                            JObj [("status", JStr "404")])])])
                    (JObj [("response", JObj [("status", JStr "404")])])
                    (JObj [("status", JStr "404")])
                    (JStr "404") eq_refl eq_refl eq_refl)) _).
    discriminate.
Defined.

(** *** [match]: which error *)

(** X16.  When a clause of a QueryByExample query is invalid, [match] is
    rejected with the error of the first invalid clause, whatever the vault
    answers to the requests of the valid clauses around it; that error is
    the engine's [TypeError] or the [NotSupportedError]. *)
Theorem match_reports_first_invalid_clause :
  forall St (edv : client St) signer query engine w credentialQuery
         pre bad post e,
    get_prop query "type" = Normal (JStr "QueryByExample") ->
    get_prop query "credentialQuery" = Normal credentialQuery ->
    truthy credentialQuery = true ->
    String.eqb (typeof credentialQuery) "object" = true ->
    as_array credentialQuery = (pre ++ bad :: post)%list ->
    (forall c, In c pre -> passes c = true) ->
    _query_criteria bad = Throw e ->
    fst (match_ edv signer query engine w) = Rejected e
    /\ (error_name e = Some "TypeError" \/ e = not_supported_error).
Proof.
  intros St edv signer query engine w cq pre bad post e
    Ht Hc Htr Hty Hcl Hpre Hbad.
  split; [|now apply (_query_criteria_throws bad)].
  rewrite (match_runs_queryByExample edv signer query engine w cq
             Ht Hc Htr Hty e); [reflexivity|].
  rewrite Hcl. now apply dispatch_all_first_throw.
Qed.

(** Witness of X16: a valid clause whose request the vault rejects, then
    [null] in place of a clause. *)
Lemma match_reports_first_invalid_clause_witness :
  fst (match_ scripted signer (QueryByExample (JArr [clause_A; JNull])) None
         (start [Rejects network_error]))
  = Rejected (nullish_TypeError "example").
Proof.
  refine (proj1 (match_reports_first_invalid_clause
                   _ scripted signer (QueryByExample (JArr [clause_A; JNull]))
                   None (start [Rejects network_error])
                   (JArr [clause_A; JNull]) [clause_A] JNull []
                   (nullish_TypeError "example")
                   eq_refl eq_refl eq_refl eq_refl eq_refl _ eq_refl)).
  intros c [<-|[]]. reflexivity.
Defined.

(** X17.  A query of one valid clause whose request fails, by a throw of
    the vault client, a rejected promise or a malformed answer, is rejected
    with that very error. *)
Theorem match_passes_single_request_error :
  forall St (edv : client St) signer query engine w credentialQuery clause
         criteria e,
    get_prop query "type" = Normal (JStr "QueryByExample") ->
    get_prop query "credentialQuery" = Normal credentialQuery ->
    truthy credentialQuery = true ->
    String.eqb (typeof credentialQuery) "object" = true ->
    as_array credentialQuery = [clause] ->
    _query_criteria clause = Normal criteria ->
    find_settle (fst (edv Find (find_request signer (map clause_spec criteria))
                        (vault w))) = Throw e ->
    fst (match_ edv signer query engine w) = Rejected e
    /\ log (snd (match_ edv signer query engine w))
       = push (log w) (Find, find_request signer (map clause_spec criteria)).
Proof.
  intros St edv signer query engine w cq clause criteria e
    Ht Hc Htr Hty Hcl Hq He.
  unfold match_. rewrite Ht. simpl. rewrite Hc.
  unfold _queryByExample. rewrite Htr, Hty, Hcl. simpl.
  unfold _query_dispatch. rewrite Hq.
  destruct (_query_criteria_shape _ _ Hq) as (ts & iss & ->).
  rewrite find_dispatch_criteria. cbv zeta.
  unfold promise_all. simpl. rewrite invoke_reply, He. simpl.
  split; [reflexivity|apply invoke_log].
Qed.

(** Witness of X17: the one request is rejected with status 500. *)
Lemma match_passes_single_request_error_witness :
  fst (match_ scripted signer (QueryByExample clause_A) None
         (start [Rejects (transport_error 500)]))
  = Rejected (transport_error 500).
Proof.
  exact (proj1 (match_passes_single_request_error
                  _ scripted signer (QueryByExample clause_A) None
                  (start [Rejects (transport_error 500)])
                  clause_A clause_A [JObj [("type", JStr "A")]]
                  (transport_error 500)
                  eq_refl eq_refl eq_refl eq_refl eq_refl eq_refl eq_refl)).
Defined.

(** *** The criteria of a clause are distinct *)

Lemma criteria_block_NoDup type issuers :
  NoDup issuers ->
  NoDup (criteria_spec [type] issuers).
Proof.
  intros Hi. unfold criteria_spec. simpl. rewrite app_nil_r.
  destruct issuers as [|i iss]; [repeat constructor; intros []|].
  apply NoDup_map_NoDup_ForallPairs; [|exact Hi].
  intros x y _ _ H. now injection H.
Qed.

Lemma criteria_spec_cons type types issuers :
  criteria_spec (type :: types) issuers
  = (criteria_spec [type] issuers ++ criteria_spec types issuers)%list.
Proof. unfold criteria_spec. simpl. now rewrite app_nil_r. Qed.

Lemma criteria_spec_NoDup types issuers :
  NoDup types -> NoDup issuers -> NoDup (criteria_spec types issuers).
Proof.
  intros Ht Hi. induction Ht as [|t ts Hnin Hts IH]; [constructor|].
  rewrite criteria_spec_cons. apply NoDup_app.
  - now apply criteria_block_NoDup.
  - exact IH.
  - intros c Hc Hc'.
    apply criteria_spec_objects in Hc. destruct Hc as (t1 & Ht1 & Hp1 & _).
    apply criteria_spec_objects in Hc'. destruct Hc' as (t2 & Ht2 & Hp2 & _).
    destruct Ht1 as [<-|[]]. apply Hnin. now rewrite <- Hp1, Hp2.
Qed.

(** X18.  The expander emits no criterion twice: when the type values of a
    clause are distinct and the ids of its trusted issuers are distinct,
    so are the criteria, and so are the equality clauses [find] builds from
    them.  (Repeated types or issuers are not merged: the number of
    criteria is always the product.) *)
Theorem expander_emits_distinct_criteria :
  forall types issuers query,
    expand types issuers = Normal query ->
    NoDup types -> NoDup issuers ->
    (forall t, In t types -> truthy t = true) ->
    (forall i, In i issuers -> truthy i = true) ->
    NoDup query
    /\ exists equals, find_equals (JArr query) = Normal equals /\ NoDup equals.
Proof.
  intros types issuers query He Ht Hi Htt Hit.
  rewrite expand_spec in He. injection He as <-.
  pose proof (criteria_spec_NoDup types issuers Ht Hi) as Hn.
  split; [exact Hn|].
  exists (map clause_spec (criteria_spec types issuers)). split.
  - apply find_equals_spec; [reflexivity|]. simpl. apply criteria_not_nullish.
  - apply NoDup_map_NoDup_ForallPairs; [|exact Hn].
    intros x y Hx Hy.
    apply criteria_spec_objects in Hx, Hy.
    destruct Hx as (t1 & Ht1 & _ & Hx), Hy as (t2 & Ht2 & _ & Hy).
    destruct Hx as [[-> _]|(i1 & Hi1 & ->)], Hy as [[-> Hnil]|(i2 & Hi2 & ->)];
      unfold clause_spec, prop; simpl;
      rewrite ?(Htt _ Ht1), ?(Htt _ Ht2), ?(Hit _ Hi1), ?(Hit _ Hi2);
      intros H; injection H; intros; subst;
      try reflexivity; try discriminate.
Qed.

(** Witness of X18: types [A, B] with issuers [x, y]. *)
Lemma expander_emits_distinct_criteria_witness :
  NoDup (criteria_spec [JStr "A"; JStr "B"] [JStr "x"; JStr "y"]).
Proof.
  refine (proj1 (expander_emits_distinct_criteria
                   [JStr "A"; JStr "B"] [JStr "x"; JStr "y"]
                   (criteria_spec [JStr "A"; JStr "B"] [JStr "x"; JStr "y"])
                   eq_refl _ _ _ _)).
  - repeat constructor; simpl; intros H;
      repeat (destruct H as [H|H]; try discriminate); exact H.
  - repeat constructor; simpl; intros H;
      repeat (destruct H as [H|H]; try discriminate); exact H.
  - intros t [<-|[<-|[]]]; reflexivity.
  - intros i [<-|[<-|[]]]; reflexivity.
Defined.
